(** * netclop.networkensemble: the NetworkEnsemble class

    A shallow embedding of [src/netclop/networkensemble.py].  The object
    is a record of its instance attributes; every method is a computation
    in a small state-and-exception monad over the object and over the trace
    of calls made to the external collaborators (Infomap, SigClu).  The
    libraries the module calls (networkx, numpy) are modelled by the
    operations the module uses from them. *)

From Stdlib Require Import ZArith QArith Qcanon Qround List String.
From stdpp Require Import base numbers gmap sets list strings sorting.

Local Open Scope Z_scope.

(** ** Nodes, node sets and partitions ([netclop.typing]) *)

(** A node is a hashable label, a string or an integer. *)
Inductive Node : Type :=
| NodeStr (s : string)
| NodeInt (z : Z).

#[global] Instance Node_eq_dec : EqDecision Node.
Proof. solve_decision. Defined.

Definition Node_to_sum (n : Node) : string + Z :=
  match n with NodeStr s => inl s | NodeInt z => inr z end.

Definition Node_of_sum (x : string + Z) : Node :=
  match x with inl s => NodeStr s | inr z => NodeInt z end.

#[global] Instance Node_countable : Countable Node.
Proof.
  apply (inj_countable' Node_to_sum Node_of_sum).
  intros []; reflexivity.
Defined.

#[global] Instance Node_inhabited : Inhabited Node := populate (NodeInt 0).

Abbreviation NodeSet := (gset Node).
Abbreviation Partition := (list (gset Node)).

(** ** Exceptions *)

Inductive exn : Type :=
| MissingResultError      (* netclop.exceptions *)
| ResamplingError         (* named by the specification only *)
| ValueError
| TypeError
| IndexError
| CollaboratorError (code : Z).   (* whatever Infomap or SigClu raise *)

#[global] Instance exn_eq_dec : EqDecision exn.
Proof. solve_decision. Defined.

Inductive result (A : Type) : Type :=
| Ok (a : A)
| Raise (e : exn).
Arguments Ok {A} a.
Arguments Raise {A} e.

(** ** Numbers *)

(** A number as an attribute value holds it: an integer of any size (a
    Python int, or a numpy integer) or a float, taken as the rational it
    stands for. *)
Inductive num : Type :=
| PyInt (z : Z)
| PyFloat (q : Qc).

#[global] Instance num_eq_dec : EqDecision num.
Proof. solve_decision. Defined.

Definition Z2Qc (z : Z) : Qc := Q2Qc (inject_Z z).

(** The value of a number. *)
Definition num_val (n : num) : Qc :=
  match n with PyInt z => Z2Qc z | PyFloat q => q end.

(** ** Directed graphs (the part of [networkx.DiGraph] the module uses) *)

(** An edge attribute dictionary maps attribute names to numbers. *)
Abbreviation EdgeData := (gmap string num).
Abbreviation Edge := (Node * Node)%type.

(** Nodes and edges are kept in the iteration order of the graph. *)
Record DiGraph : Type := mkDiGraph {
  g_nodes : list Node;
  g_edges : list (Edge * EdgeData)
}.

(** A graph holds each directed arc once. *)
Definition wf_graph (g : DiGraph) : Prop := NoDup (g_edges g).*1.

(** [net.nodes] as a set. *)
Definition node_set (g : DiGraph) : NodeSet := list_to_set (g_nodes g).

(** [nx.get_edge_attributes(net, name)]: the edges that carry the
    attribute, with its value, in edge order. *)
Definition get_edge_attributes (g : DiGraph) (name : string) : list (Edge * num) :=
  omap (fun '(k, d) => (fun w => (k, w)) <$> (d !! name)) (g_edges g).

(** [G[u][v].update({"weight": w})] on the arc [k]; nothing happens when
    the arc is absent (networkx swallows the KeyError). *)
Definition update_edge (k : Edge) (w : num) (es : list (Edge * EdgeData))
  : list (Edge * EdgeData) :=
  (fun '(k', d) => if decide (k' = k) then (k', <["weight" := w]> d) else (k', d)) <$> es.

(** [nx.set_edge_attributes(G, edge_attrs)] for a dictionary of
    [{edge: {"weight": w}}] entries, in the dictionary's order. *)
Definition set_edge_attributes (g : DiGraph) (attrs : list (Edge * num)) : DiGraph :=
  mkDiGraph (g_nodes g)
            (foldl (fun es '(k, w) => update_edge k w es) (g_edges g) attrs).

(** [net.copy()]: a fresh graph with the same nodes, arcs and attribute
    values; a value of the record is its own copy. *)
Definition copy (g : DiGraph) : DiGraph := mkDiGraph (g_nodes g) (g_edges g).

(** ** The object and the monad of its methods *)

(** [NetworkEnsemble.Config], a frozen dataclass. *)
Record Config : Type := mkConfig {
  seed : Z;
  num_bootstraps : Z;
  im_markov_time : Qc;
  im_variable_markov_time : bool;
  im_num_trials : Z
}.

(** The keyword arguments of the constructor; an absent one takes the
    default of the dataclass. *)
Record ConfigOptions : Type := mkConfigOptions {
  opt_seed : option Z;
  opt_num_bootstraps : option Z;
  opt_im_markov_time : option Qc;
  opt_im_variable_markov_time : option bool;
  opt_im_num_trials : option Z
}.

Definition no_options : ConfigOptions := mkConfigOptions None None None None None.

(** The instance attributes.  [nodes_cache] is the slot in which
    [cached_property] stores the value of [nodes] after the first access. *)
Record NetworkEnsemble : Type := mkNetworkEnsemble {
  nets : list DiGraph;
  cfg : Config;
  bootstraps : option (list DiGraph);
  partitions : option (list Partition);
  cores : option Partition;
  nodes_cache : option NodeSet
}.

Definition set_bootstraps (v : option (list DiGraph)) (s : NetworkEnsemble) :=
  mkNetworkEnsemble (nets s) (cfg s) v (partitions s) (cores s) (nodes_cache s).
Definition set_partitions (v : option (list Partition)) (s : NetworkEnsemble) :=
  mkNetworkEnsemble (nets s) (cfg s) (bootstraps s) v (cores s) (nodes_cache s).
Definition set_cores (v : option Partition) (s : NetworkEnsemble) :=
  mkNetworkEnsemble (nets s) (cfg s) (bootstraps s) (partitions s) v (nodes_cache s).
Definition set_nodes_cache (v : option NodeSet) (s : NetworkEnsemble) :=
  mkNetworkEnsemble (nets s) (cfg s) (bootstraps s) (partitions s) (cores s) v.
Definition set_nets (v : list DiGraph) (s : NetworkEnsemble) :=
  mkNetworkEnsemble v (cfg s) (bootstraps s) (partitions s) (cores s) (nodes_cache s).

(** Calls made to the external collaborators, in program order. *)
Inductive event : Type :=
| EvInfomap (c : Config) (g : DiGraph)
| EvSigClu (ps : list Partition)
| EvUpset.

Record World : Type := mkWorld {
  self : NetworkEnsemble;
  trace : list event
}.

(** A method runs on the world and either returns or raises; the world it
    leaves behind is kept in both cases. *)
Definition M (A : Type) : Type := World -> result A * World.

Definition ret {A} (a : A) : M A := fun w => (Ok a, w).
Definition raise {A} (e : exn) : M A := fun w => (Raise e, w).
Definition bind {A B} (m : M A) (k : A -> M B) : M B :=
  fun w => match m w with
           | (Ok a, w') => k a w'
           | (Raise e, w') => (Raise e, w')
           end.
Definition lift {A} (r : result A) : M A := fun w => (r, w).
Definition get_self : M NetworkEnsemble := fun w => (Ok (self w), w).
Definition modify_self (f : NetworkEnsemble -> NetworkEnsemble) : M unit :=
  fun w => (Ok tt, mkWorld (f (self w)) (trace w)).
Definition emit (e : event) : M unit :=
  fun w => (Ok tt, mkWorld (self w) (trace w ++ [e])).

Declare Scope py_scope.
Delimit Scope py_scope with py.
Notation "x <- m ;; k" := (bind m (fun x => k))
  (at level 100, m at next level, right associativity) : py_scope.
Notation "m ;;; k" := (bind m (fun _ => k))
  (at level 100, right associativity) : py_scope.
Local Open Scope py_scope.

(** A list comprehension whose body is a method call: left to right,
    stopping at the first exception. *)
Fixpoint mapM {A B} (f : A -> M B) (l : list A) : M (list B) :=
  match l with
  | [] => ret []
  | x :: l' => y <- f x ;; ys <- mapM f l' ;; ret (y :: ys)
  end.

(** The same for a computation that only returns or raises. *)
Definition rbind {A B} (r : result A) (k : A -> result B) : result B :=
  match r with Ok a => k a | Raise e => Raise e end.

Fixpoint rmapM {A B} (f : A -> result B) (l : list A) : result (list B) :=
  match l with
  | [] => Ok []
  | x :: l' => rbind (f x) (fun y => rbind (rmapM f l') (fun ys => Ok (y :: ys)))
  end.

(** Indexing a sequence: [l[i]], IndexError out of range. *)
Definition index {A} (l : list A) (i : nat) : result A :=
  match l !! i with Some x => Ok x | None => Raise IndexError end.

(** [range(n)] for an integer [n]; empty when [n] is not positive. *)
Definition range (n : Z) : list nat := seq 0 (Z.to_nat n).

(** Modelled from the spec: [netclop.netutils.flatten_partition] is not
    among the sources; the specification describes its result as the union
    of all NodeSets appearing in the partition. *)
Definition flatten_partition (p : Partition) : NodeSet := ⋃ p.

(** ** What the module takes from outside

    The default seed is a constant of [netclop.constants]; the bit
    generator and its Poisson sampler are numpy's; the community detection is
    Infomap's and the significance clustering is [netclop.sigclu]'s.  Each
    is a function of its arguments that returns or raises. *)
Class Externals : Type := {
  SEED : Z;
  Generator : Type;
  (* the generator numpy builds from a seed it accepts *)
  seeded_generator : Z -> Generator;
  (* one draw with the given mean, and the generator after it *)
  next_poisson : Generator -> Qc -> Z * Generator;
  (* the largest mean the sampler accepts *)
  POISSON_LAM_MAX : Qc;
  (* Infomap on one network: the rows (name, module_id) of its dataframe *)
  infomap_run : Config -> DiGraph -> result (list (Node * Z));
  Options : Type;
  (* constructing SigClu on the partitions with the keyword arguments,
     running it, then reading its [cores] *)
  SigClu_run : list Partition -> Options -> result Partition;
  (* the [upset] export of that SigClu object with the given options *)
  SigClu_upset : list Partition -> Options -> Options -> result unit
}.

Section Methods.
Context `{X : Externals}.

(** *** numpy: [default_rng(seed)], [array] and [Generator.poisson(lam, size)] *)

(** [np.random.default_rng(seed)] for an integer seed: a negative seed is
    refused with a ValueError. *)
Definition default_rng (seed : Z) : result Generator :=
  if bool_decide (seed < 0) then Raise ValueError else Ok (seeded_generator seed).

(** [np.array] of a tuple of numbers is an array of 64-bit integers or of
    doubles, unless an integer fits neither the signed nor the unsigned
    64-bit range: then it is an array of objects. *)
Definition np_object (n : num) : bool :=
  match n with
  | PyInt z => bool_decide (z < - 2 ^ 63) || bool_decide (2 ^ 64 <= z)
  | PyFloat _ => false
  end.

(** The sampler takes its means as doubles; an array of objects is not
    cast and is a TypeError. *)
Definition as_double (lam : list num) : result (list Qc) :=
  if existsb np_object lam then Raise TypeError else Ok (num_val <$> lam).

(** One row of draws, one per mean, left to right. *)
Fixpoint draw_row (g : Generator) (lam : list Qc) : list Z * Generator :=
  match lam with
  | [] => ([], g)
  | l :: lam' =>
      let '(d, g1) := next_poisson g l in
      let '(ds, g2) := draw_row g1 lam' in
      (d :: ds, g2)
  end.

(** [n] rows, one after the other from the same generator. *)
Fixpoint draw_rows (g : Generator) (lam : list Qc) (n : nat) : list (list Z) :=
  match n with
  | O => []
  | S n' => let '(r, g1) := draw_row g lam in r :: draw_rows g1 lam n'
  end.

Definition lam_valid (l : Qc) : bool :=
  bool_decide (0 <= l)%Qc && bool_decide (l <= POISSON_LAM_MAX)%Qc.

(** A [(1, n)] array of means against a size [(rows, cols)]: the means are
    taken as doubles and checked, then broadcast along the rows; a negative
    dimension, a bad mean or a shape that does not broadcast is a
    ValueError. *)
Definition poisson (g : Generator) (lam : list num) (rows : Z) (cols : nat)
  : result (list (list Z)) :=
  rbind (as_double lam) (fun means =>
  if negb (forallb lam_valid means) then Raise ValueError
  else if bool_decide (rows < 0) then Raise ValueError
  else if bool_decide (length means = cols) then Ok (draw_rows g means (Z.to_nat rows))
  else match means with
       | [l] => Ok (draw_rows g (replicate cols l) (Z.to_nat rows))
       | _ => Raise ValueError
       end).

(** The weights the sampler takes as means: none makes the array an array
    of objects and every value is an accepted mean. *)
Definition weights_accepted (ws : list num) : bool :=
  negb (existsb np_object ws) && forallb lam_valid (num_val <$> ws).

(** *** The constructor *)

Definition make_config (o : ConfigOptions) : Config :=
  mkConfig (default SEED (opt_seed o))
           (default 1000 (opt_num_bootstraps o))
           (default 1%Qc (opt_im_markov_time o))
           (default true (opt_im_variable_markov_time o))
           (default 5 (opt_im_num_trials o)).

(** The argument is one graph or a sequence of graphs. *)
Inductive net_arg : Type :=
| OneNet (g : DiGraph)
| NetSeq (gs : list DiGraph).

Definition init (net : net_arg) (o : ConfigOptions) : NetworkEnsemble :=
  mkNetworkEnsemble
    (match net with NetSeq gs => gs | OneNet g => [g] end)
    (make_config o)
    None None None None.

Definition new_world (net : net_arg) (o : ConfigOptions) : World :=
  mkWorld (init net o) [].

(** *** Properties and predicates *)

(** [nodes], a cached property: computed on the first access and read
    from the cache afterwards. *)
Definition nodes : M NodeSet :=
  s <- get_self ;;
  match nodes_cache s with
  | Some v => ret v
  | None =>
      let v : NodeSet := ⋃ (node_set <$> nets s) in
      modify_self (set_nodes_cache (Some v)) ;;; ret v
  end.

(** [unstable_nodes], a plain property. *)
Definition unstable_nodes : M NodeSet :=
  s <- get_self ;;
  match cores s with
  | None => raise MissingResultError
  | Some c => n <- nodes ;; ret (n ∖ flatten_partition c)
  end.

Definition is_ensemble : M bool :=
  s <- get_self ;; ret (bool_decide (1 < length (nets s))%nat).

(** [len(self.bootstraps) == self.cfg.num_bootstraps]; [len(None)] is a
    TypeError. *)
Definition is_bootstrapped : M bool :=
  s <- get_self ;;
  match bootstraps s with
  | None => raise TypeError
  | Some bs => ret (bool_decide (Z.of_nat (length bs) = num_bootstraps (cfg s)))
  end.

(** *** Community detection on one network *)

(** [groupby("module_id")["name"].apply(set).tolist()]: one set of names
    per module identifier, in increasing order of the identifier. *)
Definition group_modules (rows : list (Node * Z)) : Partition :=
  (fun m => list_to_set (filter (fun r => r.2 = m) rows).*1)
    <$> merge_sort Z.le (remove_dups rows.*2).

Definition im_partition (net : DiGraph) : M Partition :=
  s <- get_self ;;
  emit (EvInfomap (cfg s) net) ;;;
  rows <- lift (infomap_run (cfg s) net) ;;
  ret (group_modules rows).

(** What [im_partition] returns or raises on a network, apart from the
    call it leaves in the trace. *)
Definition detect (c : Config) (net : DiGraph) : result Partition :=
  rbind (infomap_run c net) (fun rows => Ok (group_modules rows)).

(** *** Resampling of the edge weights *)

(** [edges, weights = zip] of the unpacked items: the transposed items are
    unpacked into two names, which fails on an empty dictionary. *)
Definition unzip_items (items : list (Edge * num)) : result (list Edge * list num) :=
  match items with
  | [] => Raise ValueError
  | _ :: _ => Ok (items.*1, items.*2)
  end.

(** [{edges[j]: {"weight": new_weights[i, j]} for j in range(num_edges)}] *)
Definition edge_attrs (edges : list Edge) (new_weights : list (list Z))
    (i : nat) (num_edges : nat) : result (list (Edge * num)) :=
  rmapM (fun j =>
           rbind (index edges j) (fun e =>
           rbind (index new_weights i) (fun row =>
           rbind (index row j) (fun x => Ok (e, PyInt x)))))
        (seq 0 num_edges).

(** The body of [bootstrap] up to the assignment of [self.bootstraps]. *)
Definition resample (c : Config) (net : DiGraph) : result (list DiGraph) :=
  rbind (unzip_items (get_edge_attributes net "weight")) (fun '(edges, weights) =>
  let num_edges := length edges in
  rbind (default_rng (seed c)) (fun rng =>
  rbind (poisson rng weights (num_bootstraps c) num_edges) (fun new_weights =>
  rmapM (fun i =>
           let bootstrap := copy net in
           rbind (edge_attrs edges new_weights i num_edges) (fun attrs =>
           Ok (set_edge_attributes bootstrap attrs)))
        (range (num_bootstraps c))))).

Definition bootstrap (net : DiGraph) : M unit :=
  s <- get_self ;;
  bs <- lift (resample (cfg s) net) ;;
  modify_self (set_bootstraps (Some bs)).

(** *** The two orchestration calls *)

Definition partition : M unit :=
  e <- is_ensemble ;;
  if e then
    s <- get_self ;;
    ps <- mapM im_partition (nets s) ;;
    modify_self (set_partitions (Some ps))
  else
    s <- get_self ;;
    net <- lift (index (nets s) 0) ;;
    bootstrap net ;;;
    s' <- get_self ;;
    match bootstraps s' with
    | None => raise TypeError
    | Some bs =>
        ps <- mapM im_partition bs ;;
        modify_self (set_partitions (Some ps))
    end.

Definition sigclu (upset_config : option Options) (kwargs : Options) : M unit :=
  s <- get_self ;;
  match partitions s with
  | None => raise MissingResultError
  | Some ps =>
      emit (EvSigClu ps) ;;;
      c <- lift (SigClu_run ps kwargs) ;;
      modify_self (set_cores (Some c)) ;;;
      match upset_config with
      | None => ret tt
      | Some u => emit EvUpset ;;; lift (SigClu_upset ps kwargs u)
      end
  end.

End Methods.

(** ** A small instance of the outside world, to run the methods on *)

Module Demo.

(** A linear congruential generator stands for the bit generator. *)
Definition lcg (g : Z) : Z :=
  (6364136223846793005 * g + 1442695040888963407) mod 2 ^ 64.

(** A draw between 0 and twice the integer part of the mean. *)
Definition demo_poisson (g : Z) (lam : Qc) : Z * Z :=
  let g' := lcg g in ((g' / 2 ^ 33) mod (2 * Qfloor lam + 1), g').

Definition total_weight (g : DiGraph) : Qc :=
  foldr Qcplus 0%Qc (num_val <$> (get_edge_attributes g "weight").*2).

(** The detection refuses a network without flow and otherwise puts the
    nodes alternately into modules 1 and 2. *)
Definition demo_infomap (c : Config) (g : DiGraph) : result (list (Node * Z)) :=
  if bool_decide (total_weight g = 0%Qc) then Raise (CollaboratorError 1)
  else Ok (imap (fun i n => (n, 1 + Z.of_nat i mod 2)) (g_nodes g)).

(** The cores are the node sets of the first partition that every
    partition of the ensemble contains. *)
Definition demo_sigclu (ps : list Partition) (kw : Z) : result Partition :=
  match ps with
  | [] => Raise (CollaboratorError 2)
  | p :: ps' => Ok (filter (fun s => forallb (fun q => bool_decide (s ∈ q)) ps') p)
  end.

Definition demo_upset (ps : list Partition) (kw u : Z) : result unit :=
  if bool_decide (u < 0) then Raise (CollaboratorError 3) else Ok tt.

#[export] Instance demo : Externals := {|
  SEED := 42;
  Generator := Z;
  seeded_generator := fun s => s;
  next_poisson := demo_poisson;
  POISSON_LAM_MAX := Z2Qc (2 ^ 62);
  infomap_run := demo_infomap;
  Options := Z;
  SigClu_run := demo_sigclu;
  SigClu_upset := demo_upset
|}.

Definition A : Node := NodeStr "A".
Definition B : Node := NodeStr "B".
Definition C : Node := NodeStr "C".
Definition D : Node := NodeStr "D".

Definition weight (z : Z) : EdgeData := {[ "weight" := PyInt z ]}.

(** A -> B weight 5, B -> C weight 3, C -> A weight 2, D isolated. *)
Definition net4 : DiGraph :=
  mkDiGraph [A; B; C; D] [((A, B), weight 5); ((B, C), weight 3); ((C, A), weight 2)].

(** Two three-node networks of different shape. *)
Definition net3a : DiGraph :=
  mkDiGraph [A; B; C] [((A, B), weight 1); ((B, C), weight 1)].
Definition net3b : DiGraph :=
  mkDiGraph [B; C; D] [((B, C), weight 2); ((C, D), weight 0); ((D, B), weight 4)].

(** A network whose only arc has no weight. *)
Definition net_unweighted : DiGraph := mkDiGraph [A; B] [((A, B), ∅)].

(** A network with a single light arc. *)
Definition net_light : DiGraph := mkDiGraph [A; B] [((A, B), weight 1)].

Definition options (s b : Z) : ConfigOptions :=
  mkConfigOptions (Some s) (Some b) None None None.

(** One network, ten replicates, seed 42. *)
Definition w_single : World := new_world (OneNet net4) (options 42 10).

(** Two networks. *)
Definition w_pair : World := new_world (NetSeq [net3a; net3b]) no_options.

(** One network whose replicates sometimes lose all their weight. *)
Definition w_light : World := new_world (OneNet net_light) (options 42 10).

(** An object on which cores were stored. *)
Definition w_cores : World :=
  mkWorld (set_cores (Some [{[A; B]}]) (init (OneNet net4) no_options)) [].

(** A network whose only arc has weight zero: no flow. *)
Definition net_dead : DiGraph := mkDiGraph [A; B] [((A, B), weight 0)].

(** A network with an arc of weight 2.5 and an unweighted arc. *)
Definition net_mixed : DiGraph :=
  mkDiGraph [A; B; C]
            [((A, B), {[ "weight" := PyFloat (Q2Qc (5 # 2)) ]}); ((B, C), ∅)].

(** A network whose only arc has the integer weight 2^64. *)
Definition net_huge : DiGraph := mkDiGraph [A; B] [((A, B), weight (2 ^ 64))].

(** One network and a negative seed. *)
Definition w_negative_seed : World := new_world (OneNet net4) (options (-1) 10).

(** Three networks, the second without flow. *)
Definition w_broken : World := new_world (NetSeq [net3a; net_dead; net3b]) no_options.

(** No network at all. *)
Definition w_none : World := new_world (NetSeq []) no_options.

(** An object holding an empty partition ensemble. *)
Definition w_no_partitions : World :=
  mkWorld (set_partitions (Some []) (init (OneNet net4) no_options)) [].

(** The rows of a detection on four nodes in two modules. *)
Definition rows4 : list (Node * Z) := [(A, 2); (B, 1); (C, 2); (D, 1)].

(** The replicates of [net_light] under the configuration of [w_light]. *)
Definition light_replicates : list DiGraph :=
  match resample (cfg (self w_light)) net_light with Ok bs => bs | Raise _ => [] end.

(** The partitions of the two networks of [w_pair] and their cores. *)
Definition pair_partitions : list Partition :=
  default [] (partitions (self (partition w_pair).2)).

Definition pair_cores : Partition :=
  match demo_sigclu pair_partitions 0 with Ok c => c | Raise _ => [] end.

(** What the detection returns on the two networks of [w_pair]. *)
Definition pair_detected : list Partition :=
  match rmapM (detect (cfg (self w_pair))) [net3a; net3b] with
  | Ok ps => ps
  | Raise _ => []
  end.

(** The replicates of [net4] under the configuration of [w_single], and
    what the detection returns on them. *)
Definition single_replicates : list DiGraph :=
  match resample (cfg (self w_single)) net4 with Ok bs => bs | Raise _ => [] end.


(** The replicates of [net_mixed] under the configuration of [w_single]. *)
Definition mixed_replicates : list DiGraph :=
  match resample (cfg (self w_single)) net_mixed with Ok bs => bs | Raise _ => [] end.

End Demo.

(** ** What a replicate of a network is *)


(** The per-arc effect of a dictionary of new weights: every entry for
    the arc overwrites its weight, in order. *)
Definition apply_attrs (attrs : list (Edge * num)) (k : Edge) (d : EdgeData) : EdgeData :=
  foldl (fun d '(k', w) => if decide (k' = k) then <["weight" := w]> d else d) d attrs.


(** ** The steps an object can go through *)

(** What a caller can do with the object: call a method, read a property,
    or (against the documented assumption) replace the source networks. *)
Inductive step `{X : Externals} : World -> World -> Prop :=
| step_nodes w : step w (nodes w).2
| step_unstable_nodes w : step w (unstable_nodes w).2
| step_is_ensemble w : step w (is_ensemble w).2
| step_is_bootstrapped w : step w (is_bootstrapped w).2
| step_bootstrap net w : step w (bootstrap net w).2
| step_im_partition net w : step w (im_partition net w).2
| step_partition w : step w (partition w).2
| step_sigclu u kw w : step w (sigclu u kw w).2
| step_mutate_nets gs w : step w (mkWorld (set_nets gs (self w)) (trace w)).

Definition reachable `{X : Externals} : World -> World -> Prop := rtc step.

(** The documented use of an object: method calls and property reads
    only, the source networks being left alone. *)
Inductive call `{X : Externals} : World -> World -> Prop :=
| call_nodes w : call w (nodes w).2
| call_unstable_nodes w : call w (unstable_nodes w).2
| call_is_ensemble w : call w (is_ensemble w).2
| call_is_bootstrapped w : call w (is_bootstrapped w).2
| call_bootstrap net w : call w (bootstrap net w).2
| call_im_partition net w : call w (im_partition net w).2
| call_partition w : call w (partition w).2
| call_sigclu u kw w : call w (sigclu u kw w).2.

Definition used `{X : Externals} : World -> World -> Prop := rtc call.

(** ** Properties *)

Section Properties.
Context `{X : Externals}.

(** *** The monad *)

Lemma bind_Ok {A B} (m : M A) (k : A -> M B) w a w' :
  m w = (Ok a, w') -> bind m k w = k a w'.
Proof. intros H. unfold bind. by rewrite H. Qed.

Lemma bind_Raise {A B} (m : M A) (k : A -> M B) w e w' :
  m w = (Raise e, w') -> bind m k w = (Raise e, w').
Proof. intros H. unfold bind. by rewrite H. Qed.

Lemma world_eta w : mkWorld (self w) (trace w) = w.
Proof. by destruct w. Qed.

(** *** [nodes] *)

Lemma nodes_fresh w :
  nodes_cache (self w) = None ->
  nodes w = (Ok (⋃ (node_set <$> nets (self w))),
             mkWorld (set_nodes_cache (Some (⋃ (node_set <$> nets (self w)))) (self w))
                     (trace w)).
Proof. intros H. unfold nodes, bind, get_self. by rewrite H. Qed.

Lemma nodes_cached_value w v :
  nodes_cache (self w) = Some v -> nodes w = (Ok v, w).
Proof. intros H. unfold nodes, bind, get_self. by rewrite H. Qed.

(** Accessing [nodes] leaves the value in the cache. *)
Lemma nodes_fills_cache w :
  exists v, (nodes w).1 = Ok v /\ nodes_cache (self (nodes w).2) = Some v
            /\ cores (self (nodes w).2) = cores (self w).
Proof.
  destruct (nodes_cache (self w)) as [v|] eqn:E.
  - exists v. by rewrite (nodes_cached_value _ _ E).
  - eexists. rewrite (nodes_fresh _ E). by simpl.
Qed.

(** *** What each method leaves alone *)

Lemma mapM_im_partition_self gs w :
  self (mapM im_partition gs w).2 = self w.
Proof.
  revert w. induction gs as [|g gs IH]; intros w; [done|].
  simpl. unfold bind at 1. unfold im_partition at 1.
  unfold bind, get_self, emit, lift, ret; simpl.
  destruct (infomap_run (cfg (self w)) g) as [rows|e]; simpl; [|done].
  match goal with |- context [mapM im_partition gs ?w0] =>
    specialize (IH w0); destruct (mapM im_partition gs w0) as [[ps|e] w1] end;
    simpl in *; by rewrite IH.
Qed.

Lemma bootstrap_self net w :
  self (bootstrap net w).2 = self w \/
  exists bs, resample (cfg (self w)) net = Ok bs /\
             self (bootstrap net w).2 = set_bootstraps (Some bs) (self w).
Proof.
  unfold bootstrap, bind, get_self, lift, modify_self.
  destruct (resample (cfg (self w)) net) as [bs|e]; simpl; [right; eauto | by left].
Qed.

Lemma partition_nodes_cache w :
  nodes_cache (self (partition w).2) = nodes_cache (self w).
Proof.
  unfold partition, is_ensemble, bind at 1, get_self, ret; simpl.
  case_bool_decide.
  - unfold bind; simpl.
    pose proof (mapM_im_partition_self (nets (self w)) w) as Hs.
    destruct (mapM im_partition (nets (self w)) w) as [[ps|e] w1]; simpl in *;
      by rewrite Hs.
  - unfold bind at 1; simpl. unfold bind at 1, lift, index; simpl.
    destruct (nets (self w) !! 0%nat) as [net|]; simpl; [|done].
    unfold bind at 1.
    destruct (bootstrap_self net w) as [Hb|(bs & _ & Hb)];
      destruct (bootstrap net w) as [[[]|e] w1] eqn:Eb; simpl in *;
      try by rewrite Hb.
    all: unfold bind at 1; simpl;
      destruct (bootstraps (self w1)) as [bs'|]; unfold raise; simpl;
      try by rewrite Hb.
    all: unfold bind, modify_self;
      pose proof (mapM_im_partition_self bs' w1) as Hs;
      destruct (mapM im_partition bs' w1) as [[ps|e] w2]; simpl in *;
      by rewrite Hs, Hb.
Qed.

Lemma sigclu_nodes_cache u kw w :
  nodes_cache (self (sigclu u kw w).2) = nodes_cache (self w).
Proof.
  unfold sigclu, bind, get_self, emit, lift, modify_self, raise, ret; simpl.
  destruct (partitions (self w)) as [ps|]; simpl; [|done].
  destruct (SigClu_run ps kw) as [c|e]; simpl; [|done].
  destruct u as [u|]; simpl; [|done].
  by destruct (SigClu_upset ps kw u).
Qed.

(** Once filled, the cache survives every step. *)
Lemma step_keeps_cache w w' v :
  step w w' -> nodes_cache (self w) = Some v -> nodes_cache (self w') = Some v.
Proof.
  intros Hs Hc. destruct Hs.
  - by rewrite (nodes_cached_value _ _ Hc).
  - unfold unstable_nodes, bind at 1, get_self, raise.
    destruct (cores (self w)); [|done].
    unfold bind, ret. by rewrite (nodes_cached_value _ _ Hc).
  - done.
  - unfold is_bootstrapped, bind, get_self, raise, ret.
    by destruct (bootstraps (self w)).
  - destruct (bootstrap_self net w) as [->|(bs & _ & ->)]; done.
  - unfold im_partition, bind, get_self, emit, lift, ret; simpl.
    by destruct (infomap_run (cfg (self w)) net).
  - by rewrite partition_nodes_cache.
  - by rewrite sigclu_nodes_cache.
  - done.
Qed.

Lemma reachable_keeps_cache w w' v :
  reachable w w' -> nodes_cache (self w) = Some v -> nodes_cache (self w') = Some v.
Proof. induction 1; eauto using step_keeps_cache. Qed.

Lemma partition_nets w : nets (self (partition w).2) = nets (self w).
Proof.
  unfold partition, is_ensemble, bind at 1, get_self, ret; simpl.
  case_bool_decide.
  - unfold bind; simpl.
    pose proof (mapM_im_partition_self (nets (self w)) w) as Hs.
    destruct (mapM im_partition (nets (self w)) w) as [[ps|e] w1]; simpl in *;
      by rewrite Hs.
  - unfold bind at 1; simpl. unfold bind at 1, lift, index; simpl.
    destruct (nets (self w) !! 0%nat) as [net|]; simpl; [|done].
    unfold bind at 1.
    destruct (bootstrap_self net w) as [Hb|(bs & _ & Hb)];
      destruct (bootstrap net w) as [[[]|e] w1] eqn:Eb; simpl in *;
      try by rewrite Hb.
    all: unfold bind at 1; simpl;
      destruct (bootstraps (self w1)) as [bs'|]; unfold raise; simpl;
      try by rewrite Hb.
    all: unfold bind, modify_self;
      pose proof (mapM_im_partition_self bs' w1) as Hs;
      destruct (mapM im_partition bs' w1) as [[ps|e] w2]; simpl in *;
      by rewrite Hs, Hb.
Qed.

Lemma sigclu_nets u kw w : nets (self (sigclu u kw w).2) = nets (self w).
Proof.
  unfold sigclu, bind, get_self, emit, lift, modify_self, raise, ret; simpl.
  destruct (partitions (self w)) as [ps|]; simpl; [|done].
  destruct (SigClu_run ps kw) as [c|e]; simpl; [|done].
  destruct u as [u|]; simpl; [|done].
  by destruct (SigClu_upset ps kw u).
Qed.

Lemma nodes_self w :
  nets (self (nodes w).2) = nets (self w) /\
  (nodes_cache (self (nodes w).2) = nodes_cache (self w) \/
   nodes_cache (self (nodes w).2) = Some (⋃ (node_set <$> nets (self w)))).
Proof.
  destruct (nodes_cache (self w)) as [v|] eqn:E.
  - rewrite (nodes_cached_value _ _ E). auto.
  - rewrite (nodes_fresh _ E). simpl. auto.
Qed.

(** A call or a read keeps the source networks, and the cache is left as
    it is or filled with the union of their node sets. *)
Lemma call_keeps_nets w w' :
  call w w' ->
  nets (self w') = nets (self w) /\
  (nodes_cache (self w') = nodes_cache (self w) \/
   nodes_cache (self w') = Some (⋃ (node_set <$> nets (self w)))).
Proof.
  intros Hc. destruct Hc.
  - apply nodes_self.
  - assert ((unstable_nodes w).2 = w \/ (unstable_nodes w).2 = (nodes w).2) as [->| ->];
      [|auto|apply nodes_self].
    unfold unstable_nodes, bind, get_self, raise, ret.
    destruct (cores (self w)); [right|by left].
    by destruct (nodes w) as [[n|e] w1].
  - auto.
  - assert ((is_bootstrapped w).2 = w) as ->; [|auto].
    unfold is_bootstrapped, bind, get_self, raise, ret.
    by destruct (bootstraps (self w)).
  - destruct (bootstrap_self net w) as [->|(bs & _ & ->)]; auto.
  - unfold im_partition, bind, get_self, emit, lift, ret; simpl.
    destruct (infomap_run (cfg (self w)) net); auto.
  - rewrite partition_nets, partition_nodes_cache. auto.
  - rewrite sigclu_nets, sigclu_nodes_cache. auto.
Qed.

Lemma call_step w w' : call w w' -> step w w'.
Proof. intros Hc. destruct Hc; constructor. Qed.

(** Under the documented use the cache is empty or holds the union of the
    node sets of the networks given to the constructor. *)
Lemma used_cache net o w :
  used (new_world net o) w ->
  nets (self w) = nets (init net o) /\
  (nodes_cache (self w) = None \/
   nodes_cache (self w) = Some (⋃ (node_set <$> nets (init net o)))).
Proof.
  revert w. apply rtc_ind_r; [auto|].
  intros w1 w2 _ Hc [Hn Hcache].
  destruct (call_keeps_nets _ _ Hc) as [Hn' Hcache'].
  split; [congruence|].
  destruct Hcache' as [->| ->]; [done|]. right. by rewrite Hn.
Qed.

(** C9. On an object used as documented (any calls and reads since its
    construction, its source networks left alone), [nodes] returns the
    union of the node sets of the source networks given to the constructor,
    whether this is its first read or not, whether it is read directly or
    was first read through [unstable_nodes]; and every later access,
    whatever was done to the object in between (even replacing its source
    networks), returns that same value from the cache and leaves the object
    as it is. *)
Theorem nodes_computed_once_and_cached
    (net : net_arg) (o : ConfigOptions) (w w' : World) :
  used (new_world net o) w ->
  reachable (nodes w).2 w' ->
  (nodes w).1 = Ok (⋃ (node_set <$> nets (init net o))) /\
  nodes_cache (self (nodes w).2) = Some (⋃ (node_set <$> nets (init net o))) /\
  nodes w' = (Ok (⋃ (node_set <$> nets (init net o))), w').
Proof.
  intros Hu Hr. destruct (used_cache _ _ _ Hu) as [Hn Hcache].
  assert (nodes w = (Ok (⋃ (node_set <$> nets (init net o))), (nodes w).2) /\
          nodes_cache (self (nodes w).2)
          = Some (⋃ (node_set <$> nets (init net o)))) as [Hv Hc].
  { destruct Hcache as [Hnone|Hsome].
    - rewrite (nodes_fresh _ Hnone), Hn. by simpl.
    - by rewrite (nodes_cached_value _ _ Hsome). }
  split; [by rewrite Hv|]. split; [done|].
  apply nodes_cached_value. by eapply reachable_keeps_cache.
Qed.

(** *** [unstable_nodes] *)

(** C5. While the cores have not been computed, reading [unstable_nodes]
    raises MissingResultError and changes nothing: no node set, empty or
    otherwise, is returned. *)
Theorem unstable_nodes_requires_cores (w : World) :
  cores (self w) = None ->
  unstable_nodes w = (Raise MissingResultError, w) /\
  forall v : NodeSet, (unstable_nodes w).1 <> Ok v.
Proof.
  intros H. unfold unstable_nodes, bind, get_self, raise. rewrite H.
  split; [done|]. intros v; simpl; discriminate.
Qed.

Lemma unstable_nodes_value w c n w' :
  cores (self w) = Some c -> nodes w = (Ok n, w') ->
  unstable_nodes w = (Ok (n ∖ flatten_partition c), w').
Proof.
  intros Hc Hn. unfold unstable_nodes, bind at 1, get_self. rewrite Hc.
  by rewrite (bind_Ok _ _ _ _ _ Hn).
Qed.

Lemma flatten_partition_elem (c : Partition) (s : NodeSet) (x : Node) :
  s ∈ c -> x ∈ s -> x ∈ flatten_partition c.
Proof. intros Hs Hx. unfold flatten_partition. apply elem_of_union_list. eauto. Qed.

(** C4. When the cores exist, [unstable_nodes] returns the cached node
    union minus the union of the node sets of the cores; the result shares
    no node with any node set of the cores; and nothing of it is kept: once
    the cores are replaced, the next access gives the difference against
    the new cores. *)
Theorem unstable_nodes_is_difference (w : World) (c : Partition) :
  cores (self w) = Some c ->
  exists (n : NodeSet) (w' : World),
    nodes w = (Ok n, w') /\
    nodes_cache (self w') = Some n /\
    unstable_nodes w = (Ok (n ∖ flatten_partition c), w') /\
    (forall s : NodeSet, s ∈ c -> (n ∖ flatten_partition c) ## s) /\
    (forall c2 : Partition,
        unstable_nodes (mkWorld (set_cores (Some c2) (self w')) (trace w'))
        = (Ok (n ∖ flatten_partition c2),
           mkWorld (set_cores (Some c2) (self w')) (trace w'))).
Proof.
  intros Hc. destruct (nodes_fills_cache w) as (n & Hn & Hcache & _).
  destruct (nodes w) as [r w'] eqn:E. simpl in Hn, Hcache. subst r.
  exists n, w'. split_and!; [done | done | by apply unstable_nodes_value | |].
  - intros s Hs x Hx1 Hx2. apply elem_of_difference in Hx1 as [_ Hx1].
    apply Hx1. by eapply flatten_partition_elem.
  - intros c2. apply unstable_nodes_value; [done|].
    by apply nodes_cached_value.
Qed.

(** *** [is_bootstrapped] *)

(** C2. On an object on which bootstrapping has not run, [is_bootstrapped]
    raises TypeError (the length of None is taken) instead of returning
    false. *)
Theorem is_bootstrapped_raises_before_bootstrap (net : net_arg) (o : ConfigOptions) :
  is_bootstrapped (new_world net o) = (Raise TypeError, new_world net o).
Proof. reflexivity. Qed.

(** Once replicates are stored the answer compares their number with the
    configured one. *)
Lemma is_bootstrapped_after w bs :
  bootstraps (self w) = Some bs ->
  is_bootstrapped w
  = (Ok (bool_decide (Z.of_nat (length bs) = num_bootstraps (cfg (self w)))), w).
Proof. intros H. unfold is_bootstrapped, bind, get_self, ret. by rewrite H. Qed.

(** *** [sigclu] *)

(** C6. Without a partition ensemble [sigclu] raises MissingResultError
    and leaves the object and the trace of collaborator calls as they
    were, so no detection was run; with one, the partition the clustering
    returns for the stored ensemble is stored as the cores, and the
    partitions stay. *)
Theorem sigclu_requires_partitions (w : World) (u : option Options) (kw : Options) :
  (partitions (self w) = None ->
   sigclu u kw w = (Raise MissingResultError, w)) /\
  (forall (ps : list Partition) (c : Partition),
     partitions (self w) = Some ps ->
     SigClu_run ps kw = Ok c ->
     cores (self (sigclu u kw w).2) = Some c /\
     partitions (self (sigclu u kw w).2) = Some ps /\
     (u = None -> (sigclu u kw w).1 = Ok tt)).
Proof.
  split.
  - intros H. unfold sigclu, bind, get_self, raise. by rewrite H.
  - intros ps c Hp Hrun.
    unfold sigclu, bind, get_self, emit, lift, modify_self, ret; simpl.
    rewrite Hp; simpl. rewrite Hrun; simpl.
    destruct u as [u|]; simpl; [|done].
    destruct (SigClu_upset ps kw u); simpl; split_and!; done.
Qed.

(** *** The sampler *)

Lemma draw_row_length g lam : length (draw_row g lam).1 = length lam.
Proof.
  revert g. induction lam as [|l lam IH]; intros g; [done|].
  simpl. destruct (next_poisson g l) as [d g1]. specialize (IH g1).
  destruct (draw_row g1 lam) as [ds g2]. simpl in *. by rewrite IH.
Qed.

Lemma draw_row_means g lam :
  Forall2 (fun l d => exists g', d = (next_poisson g' l).1) lam (draw_row g lam).1.
Proof.
  revert g. induction lam as [|l lam IH]; intros g; [by constructor|].
  simpl. destruct (next_poisson g l) as [d g1] eqn:E. specialize (IH g1).
  destruct (draw_row g1 lam) as [ds g2]. simpl in *.
  constructor; [|done]. exists g. by rewrite E.
Qed.

Lemma draw_rows_length g lam n : length (draw_rows g lam n) = n.
Proof.
  revert g. induction n as [|n IH]; intros g; [done|].
  simpl. destruct (draw_row g lam) as [r g1]. simpl. by rewrite IH.
Qed.

Lemma draw_rows_rows g lam n :
  Forall (fun row => length row = length lam /\
                     Forall2 (fun l d => exists g', d = (next_poisson g' l).1) lam row)
         (draw_rows g lam n).
Proof.
  revert g. induction n as [|n IH]; intros g; [by constructor|].
  simpl. pose proof (draw_row_length g lam) as Hl.
  pose proof (draw_row_means g lam) as Hm.
  destruct (draw_row g lam) as [r g1]. simpl in *. constructor; [done|apply IH].
Qed.

Lemma weights_accepted_as_double ws :
  weights_accepted ws = true ->
  as_double ws = Ok (num_val <$> ws) /\ forallb lam_valid (num_val <$> ws) = true.
Proof.
  unfold weights_accepted, as_double. intros H.
  apply andb_true_iff in H as [H1 H2]. apply negb_true_iff in H1.
  by rewrite H1.
Qed.

Lemma poisson_Ok g lam rows :
  weights_accepted lam = true -> 0 <= rows ->
  poisson g lam rows (length lam)
  = Ok (draw_rows g (num_val <$> lam) (Z.to_nat rows)).
Proof.
  intros Hv Hr. unfold poisson.
  destruct (weights_accepted_as_double _ Hv) as [-> Hm]. cbn [rbind].
  rewrite Hm. simpl.
  rewrite bool_decide_eq_false_2 by lia.
  by rewrite bool_decide_eq_true_2 by (by rewrite length_fmap).
Qed.

(** Whenever the sampler returns, it returns as many rows as asked. *)
Lemma poisson_rows g lam rows cols m :
  poisson g lam rows cols = Ok m -> 0 <= rows /\ length m = Z.to_nat rows.
Proof.
  unfold poisson. destruct (as_double lam) as [means|e]; [|done]. cbn [rbind].
  destruct (negb _); [done|].
  case_bool_decide as Hneg; [done|]. intros Hm. split; [lia|].
  case_bool_decide as Hcols.
  - injection Hm as <-. apply draw_rows_length.
  - destruct means as [|l [|]]; try done. injection Hm as <-. apply draw_rows_length.
Qed.

(** *** Comprehensions that only return or raise *)

Lemma rmapM_Ok {A B} (f : A -> result B) (g : A -> B) (l : list A) :
  (forall x, x ∈ l -> f x = Ok (g x)) -> rmapM f l = Ok (g <$> l).
Proof.
  induction l as [|x l IH]; intros H; [done|].
  simpl. rewrite H by left. simpl. rewrite IH; [done|].
  intros y Hy. apply H. by right.
Qed.

Lemma rmapM_length {A B} (f : A -> result B) (l : list A) (r : list B) :
  rmapM f l = Ok r -> length r = length l.
Proof.
  revert r. induction l as [|x l IH]; intros r; simpl.
  - by intros [= <-].
  - destruct (f x); [|done]. simpl. destruct (rmapM f l); [|done]. simpl.
    intros [= <-]. simpl. by rewrite (IH _ eq_refl).
Qed.

Lemma index_Ok {A} `{Inhabited A} (l : list A) (i : nat) :
  (i < length l)%nat -> index l i = Ok (l !!! i).
Proof.
  intros Hi. unfold index. destruct (lookup_lt_is_Some_2 l i Hi) as [x Hx].
  rewrite Hx. by rewrite (list_lookup_total_correct _ _ _ Hx).
Qed.

Lemma edge_attrs_Ok (edges : list Edge) (new_weights : list (list Z)) i row :
  new_weights !! i = Some row -> length row = length edges ->
  edge_attrs edges new_weights i (length edges) = Ok (zip edges (PyInt <$> row)).
Proof.
  intros Hi Hl. unfold edge_attrs.
  rewrite (rmapM_Ok _ (fun j => (edges !!! j, PyInt (row !!! j)))).
  - f_equal. apply list_eq. intros j. rewrite list_lookup_fmap.
    destruct (decide (j < length edges)%nat) as [Hj|Hj].
    + rewrite lookup_seq_lt by done. simpl.
      destruct (lookup_lt_is_Some_2 edges j Hj) as [e He].
      destruct (lookup_lt_is_Some_2 row j ltac:(lia)) as [x Hx].
      rewrite (list_lookup_total_correct _ _ _ He), (list_lookup_total_correct _ _ _ Hx).
      symmetry. apply lookup_zip_with_Some. exists e, (PyInt x).
      split_and!; [done | done | by rewrite list_lookup_fmap, Hx].
    + rewrite lookup_seq_ge by lia. simpl. symmetry.
      apply lookup_ge_None. rewrite length_zip_with, length_fmap. lia.
  - intros j Hj. apply elem_of_seq in Hj.
    rewrite index_Ok by lia. simpl. unfold index at 1. rewrite Hi. simpl.
    rewrite index_Ok by lia. done.
Qed.

(** *** Setting edge attributes *)

Lemma update_edge_keys k w es : (update_edge k w es).*1 = es.*1.
Proof.
  unfold update_edge. rewrite <- list_fmap_compose.
  apply list_fmap_ext. intros _ [k' d] _. simpl. by case_decide.
Qed.

Lemma foldl_update_edge attrs es :
  foldl (fun es '(k, w) => update_edge k w es) es attrs
  = (fun '(k, d) => (k, apply_attrs attrs k d)) <$> es.
Proof.
  revert es. induction attrs as [|[k w] attrs IH]; intros es; simpl.
  - rewrite <- (list_fmap_id es) at 1. apply list_fmap_ext. by intros _ [k' d] _.
  - rewrite IH. unfold update_edge. rewrite <- list_fmap_compose.
    apply list_fmap_ext. intros _ [k' d] _. simpl.
    unfold apply_attrs at 2. simpl.
    destruct (decide (k' = k)) as [->|Hne];
      [rewrite decide_True by done | rewrite decide_False by done]; done.
Qed.


Lemma apply_attrs_notin attrs k d : k ∉ attrs.*1 -> apply_attrs attrs k d = d.
Proof.
  revert d. induction attrs as [|[k' w] attrs IH]; intros d Hk; [done|].
  simpl in Hk. apply not_elem_of_cons in Hk as [Hne Hk].
  unfold apply_attrs in *. simpl. rewrite decide_False by done. by apply IH.
Qed.

Lemma apply_attrs_in attrs k w d :
  NoDup attrs.*1 -> (k, w) ∈ attrs -> apply_attrs attrs k d !! "weight" = Some w.
Proof.
  revert d. induction attrs as [|[k' w'] attrs IH]; intros d Hnd Hin.
  - by apply elem_of_nil in Hin.
  - simpl in Hnd. apply NoDup_cons in Hnd as [Hk' Hnd].
    apply elem_of_cons in Hin as [Heq|Hin].
    + injection Heq as -> ->.
      change (apply_attrs attrs k' (if decide (k' = k') then <["weight" := w']> d else d)
              !! "weight" = Some w').
      rewrite decide_True by done. rewrite apply_attrs_notin by done.
      apply lookup_insert_eq.
    + change (apply_attrs attrs k (if decide (k' = k) then <["weight" := w']> d else d)
              !! "weight" = Some w).
      by apply IH.
Qed.

Lemma set_edge_attributes_keys g attrs :
  (g_edges (set_edge_attributes g attrs)).*1 = (g_edges g).*1.
Proof.
  unfold set_edge_attributes. simpl. rewrite foldl_update_edge.
  rewrite <- list_fmap_compose. apply list_fmap_ext. by intros _ [k d] _.
Qed.


(** The weighted arcs of a graph are among its arcs. *)
Lemma get_edge_attributes_keys_subseteq g name k :
  k ∈ (get_edge_attributes g name).*1 ->
  exists d w, (k, d) ∈ g_edges g /\ d !! name = Some w.
Proof.
  unfold get_edge_attributes. intros Hk.
  apply list_elem_of_fmap in Hk as ([k' w] & -> & Hk).
  apply list_elem_of_omap in Hk as ([k0 d] & Hin & Hw).
  destruct (d !! name) as [w0|] eqn:E; simpl in Hw; [|done].
  injection Hw as <- <-. simpl. eauto.
Qed.

Lemma get_edge_attributes_NoDup g name :
  wf_graph g -> NoDup (get_edge_attributes g name).*1.
Proof.
  unfold wf_graph, get_edge_attributes.
  induction (g_edges g) as [|[k d] es IH]; simpl; intros Hnd; [constructor|].
  apply NoDup_cons in Hnd as [Hk Hnd].
  destruct (d !! name) as [w|]; simpl; [|by apply IH].
  apply NoDup_cons. split; [|by apply IH].
  intros Hin. apply Hk.
  apply list_elem_of_fmap in Hin as ([k' w'] & -> & Hin).
  apply list_elem_of_omap in Hin as ([k0 d0] & Hin & Hw).
  destruct (d0 !! name); simpl in Hw; [|done]. injection Hw as <- <-.
  apply list_elem_of_fmap. by exists (k0, d0).
Qed.

(** Reading the weights back after they were set on the weighted arcs. *)
Lemma weights_after_update (A : list (Edge * num)) es (row : list num) :
  NoDup A.*1 ->
  length row = length (omap (fun '(k, d) => (fun w => (k, w)) <$> (d !! "weight")) es) ->
  (forall kw, kw ∈ zip (omap (fun '(k, d) => (fun w : num => (k, w)) <$> (d !! "weight")) es).*1 row
              -> kw ∈ A) ->
  (forall k d, (k, d) ∈ es -> d !! "weight" = None -> k ∉ A.*1) ->
  omap (fun '(k, d) => (fun w => (k, w)) <$> (d !! "weight"))
       ((fun '(k, d) => (k, apply_attrs A k d)) <$> es)
  = zip (omap (fun '(k, d) => (fun w : num => (k, w)) <$> (d !! "weight")) es).*1 row.
Proof.
  intros HA. revert row. induction es as [|[k d] es IH]; intros row Hlen Hsub Hun.
  - done.
  - simpl in *. destruct (d !! "weight") as [w0|] eqn:E; simpl in *.
    + destruct row as [|r row]; [done|]. simpl in *.
      rewrite (apply_attrs_in A k r d HA) by (apply Hsub, list_elem_of_here). simpl.
      f_equal. apply IH; [by injection Hlen | |].
      * intros kw Hkw. by apply Hsub, list_elem_of_further.
      * intros k' d' Hin. by apply Hun, list_elem_of_further.
    + rewrite apply_attrs_notin by (eapply Hun; [apply list_elem_of_here|done]).
      rewrite E. simpl. apply IH; [done|done|].
      intros k' d' Hin. by apply Hun, list_elem_of_further.
Qed.

Lemma set_edge_attributes_weights g (row : list num) :
  wf_graph g ->
  length row = length (get_edge_attributes g "weight") ->
  get_edge_attributes
    (set_edge_attributes (copy g) (zip (get_edge_attributes g "weight").*1 row)) "weight"
  = zip (get_edge_attributes g "weight").*1 row.
Proof.
  intros Hwf Hlen. unfold get_edge_attributes at 1, set_edge_attributes. simpl.
  rewrite foldl_update_edge. apply weights_after_update.
  - rewrite fst_zip by (rewrite length_fmap; lia).
    by apply get_edge_attributes_NoDup.
  - done.
  - done.
  - intros k d Hin Hnone Hk.
    rewrite fst_zip in Hk by (rewrite length_fmap, Hlen; apply Nat.le_refl).
    apply get_edge_attributes_keys_subseteq in Hk as (d' & w & Hin' & Hw).
    assert (d = d') as ->; [|congruence].
    clear -Hwf Hin Hin'. unfold wf_graph in Hwf.
    induction (g_edges g) as [|[k0 d0] es IH]; [by apply elem_of_nil in Hin|].
    simpl in Hwf. apply NoDup_cons in Hwf as [Hk0 Hwf].
    apply elem_of_cons in Hin as [Heq|Hin]; apply elem_of_cons in Hin' as [Heq'|Hin'].
    + congruence.
    + injection Heq as -> ->. exfalso. apply Hk0.
      apply list_elem_of_fmap. by exists (k0, d').
    + injection Heq' as -> ->. exfalso. apply Hk0.
      apply list_elem_of_fmap. by exists (k0, d).
    + by apply IH.
Qed.

(** *** [resample] and [bootstrap] *)

Lemma resample_no_weights c net :
  get_edge_attributes net "weight" = [] -> resample c net = Raise ValueError.
Proof. intros H. unfold resample. by rewrite H. Qed.

Lemma fmap_lookup_total_seq {A B} `{Inhabited A} (f : A -> B) (l : list A) :
  (fun i => f (l !!! i)) <$> seq 0 (length l) = f <$> l.
Proof.
  apply list_eq. intros i. rewrite !list_lookup_fmap.
  destruct (decide (i < length l)%nat) as [Hi|Hi].
  - rewrite lookup_seq_lt by done. simpl.
    destruct (lookup_lt_is_Some_2 l i Hi) as [x Hx].
    by rewrite Hx, (list_lookup_total_correct _ _ _ Hx).
  - rewrite lookup_seq_ge by lia. by rewrite lookup_ge_None_2 by lia.
Qed.

(** The replicate built from one row of draws. *)
Lemma resample_Ok c net :
  get_edge_attributes net "weight" <> [] ->
  0 <= seed c ->
  weights_accepted (get_edge_attributes net "weight").*2 = true ->
  0 <= num_bootstraps c ->
  resample c net
  = Ok ((fun row => set_edge_attributes (copy net)
                      (zip (get_edge_attributes net "weight").*1 (PyInt <$> row)))
          <$> draw_rows (seeded_generator (seed c))
                        (num_val <$> (get_edge_attributes net "weight").*2)
                        (Z.to_nat (num_bootstraps c))).
Proof.
  intros Hne Hseed Hv HB. unfold resample.
  destruct (get_edge_attributes net "weight") as [|it items] eqn:E; [done|].
  cbn [unzip_items rbind]. set (L := it :: items) in *.
  unfold default_rng. rewrite bool_decide_eq_false_2 by lia. cbn [rbind].
  replace (length L.*1) with (length L.*2) by (by rewrite !length_fmap).
  rewrite poisson_Ok by done. cbn [rbind].
  set (rows := draw_rows _ _ _).
  assert (length rows = Z.to_nat (num_bootstraps c)) as Hrows
    by apply draw_rows_length.
  unfold range. rewrite <- Hrows.
  rewrite (rmapM_Ok _ (fun i => set_edge_attributes (copy net)
                                  (zip L.*1 (PyInt <$> (rows !!! i))))).
  - f_equal. apply (fmap_lookup_total_seq
      (fun row => set_edge_attributes (copy net) (zip L.*1 (PyInt <$> row)))).
  - intros i Hi. apply elem_of_seq in Hi.
    destruct (lookup_lt_is_Some_2 rows i ltac:(lia)) as [row Hrow].
    rewrite (list_lookup_total_correct _ _ _ Hrow).
    assert (length row = length L.*2) as Hlen.
    { pose proof (draw_rows_rows (seeded_generator (seed c)) (num_val <$> L.*2)
                    (Z.to_nat (num_bootstraps c))) as Hall.
      rewrite Forall_forall in Hall.
      rewrite <- (length_fmap num_val L.*2).
      apply (Hall row). apply list_elem_of_lookup. eauto. }
    replace (length L.*2) with (length L.*1) in * by (by rewrite !length_fmap).
    by rewrite (edge_attrs_Ok _ _ _ row).
Qed.



(** C3 (as the code has it). On a network without weighted edges
    [bootstrap] raises ValueError, from unpacking the empty transposition
    of the weight dictionary, before anything is drawn; the object and its
    stored replicates stay as they were. *)
Theorem bootstrap_no_weights_raises_ValueError (net : DiGraph) (w : World) :
  get_edge_attributes net "weight" = [] ->
  bootstrap net w = (Raise ValueError, w).
Proof.
  intros H. unfold bootstrap, bind, get_self, lift.
  by rewrite (resample_no_weights _ _ H).
Qed.


Lemma resample_deterministic c1 c2 net :
  seed c1 = seed c2 -> num_bootstraps c1 = num_bootstraps c2 ->
  resample c1 net = resample c2 net.
Proof. intros Hs Hb. unfold resample. by rewrite Hs, Hb. Qed.

(** C8. The outcome of [bootstrap] depends on the seed, the replicate
    count and the network only: on two objects with the same seed and
    count, whatever else they hold and whatever ran on them before, it
    returns or raises alike, and when it returns both objects hold the very
    same replicates, weights included. *)
Theorem bootstrap_deterministic (net : DiGraph) (w1 w2 : World) :
  seed (cfg (self w1)) = seed (cfg (self w2)) ->
  num_bootstraps (cfg (self w1)) = num_bootstraps (cfg (self w2)) ->
  (bootstrap net w1).1 = (bootstrap net w2).1 /\
  ((bootstrap net w1).1 = Ok tt ->
   exists bs, bootstraps (self (bootstrap net w1).2) = Some bs /\
              bootstraps (self (bootstrap net w2).2) = Some bs).
Proof.
  intros Hs Hb. unfold bootstrap, bind, get_self, lift, modify_self.
  rewrite (resample_deterministic _ _ net Hs Hb).
  destruct (resample (cfg (self w2)) net) as [bs|e]; simpl; [|done].
  split; [done|]. intros _. by exists bs.
Qed.

(** *** [partition] *)

Lemma bootstrap_unfold net w :
  bootstrap net w
  = match resample (cfg (self w)) net with
    | Ok bs => (Ok tt, mkWorld (set_bootstraps (Some bs) (self w)) (trace w))
    | Raise e => (Raise e, w)
    end.
Proof.
  unfold bootstrap, bind, get_self, lift, modify_self.
  by destruct (resample (cfg (self w)) net).
Qed.

Lemma im_partition_run g w :
  im_partition g w
  = (detect (cfg (self w)) g,
     mkWorld (self w) (trace w ++ [EvInfomap (cfg (self w)) g])).
Proof.
  unfold im_partition, detect, bind, get_self, emit, lift, ret. simpl.
  by destruct (infomap_run (cfg (self w)) g).
Qed.

Lemma mapM_im_partition_Ok gs ps w :
  rmapM (detect (cfg (self w))) gs = Ok ps ->
  mapM im_partition gs w
  = (Ok ps, mkWorld (self w) (trace w ++ (EvInfomap (cfg (self w)) <$> gs))).
Proof.
  revert ps w. induction gs as [|g gs IH]; intros ps w.
  - intros [= <-]. simpl. unfold ret. by rewrite app_nil_r, world_eta.
  - cbn [rmapM].
    destruct (detect (cfg (self w)) g) as [p|e] eqn:E; [|done]. cbn [rbind].
    destruct (rmapM (detect (cfg (self w))) gs) as [ps'|e] eqn:E'; [|done].
    intros [= <-].
    change (mapM im_partition (g :: gs))
      with (bind (im_partition g)
                 (fun y => bind (mapM im_partition gs) (fun ys => ret (y :: ys)))).
    unfold bind at 1. rewrite im_partition_run, E.
    unfold bind. rewrite (IH ps') by done. unfold ret. cbn [self trace fmap list_fmap].
    by rewrite <- app_assoc.
Qed.

Lemma partition_ensemble w :
  (1 < length (nets (self w)))%nat ->
  partition w
  = match mapM im_partition (nets (self w)) w with
    | (Ok ps, w1) => (Ok tt, mkWorld (set_partitions (Some ps) (self w1)) (trace w1))
    | (Raise e, w1) => (Raise e, w1)
    end.
Proof.
  intros H. unfold partition, is_ensemble, bind at 1 2, get_self, ret. simpl.
  rewrite bool_decide_eq_true_2 by done.
  unfold bind, modify_self. simpl.
  by destruct (mapM im_partition (nets (self w)) w) as [[ps|e] w1].
Qed.

Lemma partition_single w net :
  nets (self w) = [net] ->
  partition w
  = match resample (cfg (self w)) net with
    | Raise e => (Raise e, w)
    | Ok bs =>
        match mapM im_partition bs
                (mkWorld (set_bootstraps (Some bs) (self w)) (trace w)) with
        | (Ok ps, w1) => (Ok tt, mkWorld (set_partitions (Some ps) (self w1)) (trace w1))
        | (Raise e, w1) => (Raise e, w1)
        end
    end.
Proof.
  intros H. unfold partition, is_ensemble, bind at 1 2, get_self, ret. simpl.
  rewrite H. simpl. unfold bind at 1. simpl.
  unfold bind at 1. unfold lift, index. rewrite H. simpl.
  unfold bind at 1. rewrite bootstrap_unfold.
  destruct (resample (cfg (self w)) net) as [bs|e]; [|done].
  unfold bind at 1. simpl. unfold bind, modify_self.
  by destruct (mapM im_partition bs _) as [[ps|e] w1].
Qed.

Lemma partition_no_nets w :
  nets (self w) = [] -> partition w = (Raise IndexError, w).
Proof.
  intros H. unfold partition, is_ensemble, bind at 1 2, get_self, ret. simpl.
  rewrite H. simpl. unfold bind at 1. simpl.
  unfold bind at 1. unfold lift, index. by rewrite H.
Qed.


(** C10. When [partition] raises, the stored partitions are the ones from
    before the call; in the single-network mode, when the resampling itself
    returned, the stored replicates are already the new ones. *)
Theorem partition_failure_keeps_partitions (w w' : World) (e : exn) :
  partition w = (Raise e, w') ->
  partitions (self w') = partitions (self w) /\
  forall (net : DiGraph) (bs : list DiGraph),
    nets (self w) = [net] ->
    resample (cfg (self w)) net = Ok bs ->
    bootstraps (self w') = Some bs.
Proof.
  intros Hp.
  destruct (nets (self w)) as [|net [|net2 rest]] eqn:Hn.
  - rewrite (partition_no_nets _ Hn) in Hp. injection Hp as _ <-.
    split; [done|]. intros ? ? [=].
  - rewrite (partition_single _ _ Hn) in Hp.
    destruct (resample (cfg (self w)) net) as [bs|e0] eqn:Hr.
    + match type of Hp with context [mapM im_partition ?l ?w0] =>
        pose proof (mapM_im_partition_self l w0) as Hs;
        destruct (mapM im_partition l w0) as [[ps|e1] w1] end; [done|].
      injection Hp as _ <-. simpl in Hs. rewrite Hs. split; [done|].
      intros net' bs' Hn' Hr'. injection Hn' as <-.
      rewrite Hr in Hr'. by injection Hr' as <-.
    + injection Hp as _ <-. split; [done|].
      intros net' bs' [= <-] Hr'. by rewrite Hr in Hr'.
  - rewrite partition_ensemble in Hp by (rewrite Hn; simpl; lia).
    pose proof (mapM_im_partition_self (nets (self w)) w) as Hs.
    destruct (mapM im_partition (nets (self w)) w) as [[ps|e1] w1]; [done|].
    injection Hp as _ <-. simpl in Hs. rewrite Hs. split; [done|].
    by intros net' bs' [=].
Qed.

End Properties.

(** ** Further properties of the methods *)

Section MoreProperties.
Context `{X : Externals}.

(** *** Grouping the rows of the detection into modules *)

Lemma group_modules_elem (rows : list (Node * Z)) (s : NodeSet) :
  s ∈ group_modules rows <->
  exists m, m ∈ rows.*2 /\ s = list_to_set (filter (fun r => r.2 = m) rows).*1.
Proof.
  unfold group_modules. rewrite list_elem_of_fmap. split.
  - intros (m & -> & Hm). exists m. split; [|done].
    by rewrite merge_sort_Permutation, elem_of_remove_dups in Hm.
  - intros (m & Hm & ->). exists m. split; [done|].
    by rewrite merge_sort_Permutation, elem_of_remove_dups.
Qed.

Lemma group_member (rows : list (Node * Z)) (m : Z) (x : Node) :
  x ∈ (list_to_set (filter (fun r => r.2 = m) rows).*1 : NodeSet) <-> (x, m) ∈ rows.
Proof.
  rewrite elem_of_list_to_set, list_elem_of_fmap. split.
  - intros ([x' m'] & -> & Hin). apply list_elem_of_filter in Hin as [Hm Hin].
    simpl in *. by subst.
  - intros Hin. exists (x, m). split; [done|]. by apply list_elem_of_filter.
Qed.

(** X1. The node sets [im_partition] builds from the rows of the detection
    cover exactly the names in the rows, none of them is empty, and there is
    one per distinct module identifier. *)
Theorem group_modules_covers_names (rows : list (Node * Z)) :
  ⋃ (group_modules rows) = list_to_set rows.*1 /\
  (forall s : NodeSet, s ∈ group_modules rows -> s <> ∅) /\
  length (group_modules rows) = length (remove_dups rows.*2).
Proof.
  split_and!.
  - apply set_eq. intros x. rewrite elem_of_union_list, elem_of_list_to_set. split.
    + intros (s & Hs & Hx). apply group_modules_elem in Hs as (m & _ & ->).
      apply group_member in Hx. apply list_elem_of_fmap. by exists (x, m).
    + intros Hx. apply list_elem_of_fmap in Hx as ([x' m] & -> & Hin). simpl.
      exists (list_to_set (filter (fun r => r.2 = m) rows).*1). split.
      * apply group_modules_elem. exists m. split; [|done].
        apply list_elem_of_fmap. by exists (x', m).
      * by apply group_member.
  - intros s Hs. apply group_modules_elem in Hs as (m & Hm & ->).
    apply list_elem_of_fmap in Hm as ([x m'] & -> & Hin). simpl.
    intros Hempty. assert (x ∈ (∅ : NodeSet)) as Hx; [|by apply not_elem_of_empty in Hx].
    rewrite <- Hempty. by apply group_member.
  - unfold group_modules. rewrite length_fmap.
    by rewrite merge_sort_Permutation.
Qed.

(** Rows with one row per name give every name one module identifier. *)
Lemma rows_functional (rows : list (Node * Z)) :
  NoDup rows.*1 ->
  forall x m1 m2, (x, m1) ∈ rows -> (x, m2) ∈ rows -> m1 = m2.
Proof.
  induction rows as [|[y m] rows IH]; intros Hnd x m1 m2 H1 H2.
  - by apply elem_of_nil in H1.
  - simpl in Hnd. apply NoDup_cons in Hnd as [Hy Hnd].
    apply elem_of_cons in H1 as [H1|H1]; apply elem_of_cons in H2 as [H2|H2].
    + congruence.
    + injection H1 as -> ->. exfalso. apply Hy.
      apply list_elem_of_fmap. by exists (y, m2).
    + injection H2 as -> ->. exfalso. apply Hy.
      apply list_elem_of_fmap. by exists (y, m1).
    + by apply (IH Hnd x).
Qed.

(** X2. When the detection gives every name one module identifier, the
    node sets built from its rows are pairwise disjoint: they form a
    partition of the names. *)
Theorem group_modules_disjoint (rows : list (Node * Z)) (i j : nat) (s t : NodeSet) :
  (forall x m1 m2, (x, m1) ∈ rows -> (x, m2) ∈ rows -> m1 = m2) ->
  i <> j ->
  group_modules rows !! i = Some s ->
  group_modules rows !! j = Some t ->
  s ## t.
Proof.
  intros Hfun Hij Hi Hj. unfold group_modules in Hi, Hj.
  rewrite list_lookup_fmap in Hi. rewrite list_lookup_fmap in Hj.
  destruct (merge_sort Z.le (remove_dups rows.*2) !! i) as [m1|] eqn:E1; [|done].
  destruct (merge_sort Z.le (remove_dups rows.*2) !! j) as [m2|] eqn:E2; [|done].
  simpl in Hi, Hj. injection Hi as <-. injection Hj as <-.
  assert (NoDup (merge_sort Z.le (remove_dups rows.*2))) as Hnd
    by (rewrite merge_sort_Permutation; apply NoDup_remove_dups).
  intros x Hx1 Hx2. apply group_member in Hx1, Hx2.
  apply Hij. eapply NoDup_lookup; [exact Hnd | exact E1 |].
  by rewrite (Hfun x m1 m2 Hx1 Hx2).
Qed.


(** *** Detection runs inside [partition] *)

Lemma mapM_im_partition_result gs w :
  (mapM im_partition gs w).1 = rmapM (detect (cfg (self w))) gs.
Proof.
  revert w. induction gs as [|g gs IH]; intros w; [done|].
  change (mapM im_partition (g :: gs))
    with (bind (im_partition g)
               (fun y => bind (mapM im_partition gs) (fun ys => ret (y :: ys)))).
  unfold bind at 1. rewrite im_partition_run. cbn [rmapM].
  destruct (detect (cfg (self w)) g) as [p|e]; [|done]. cbn [rbind].
  unfold bind. specialize (IH (mkWorld (self w) (trace w ++ [EvInfomap (cfg (self w)) g]))).
  cbn [self] in IH. rewrite <- IH.
  by destruct (mapM im_partition gs _) as [[ps|e] w1].
Qed.

(** The runs stop at the first network on which the detection raises. *)
Lemma mapM_im_partition_first_failure gs1 g gs2 ps1 e w :
  rmapM (detect (cfg (self w))) gs1 = Ok ps1 ->
  detect (cfg (self w)) g = Raise e ->
  mapM im_partition (gs1 ++ g :: gs2) w
  = (Raise e, mkWorld (self w)
                      (trace w ++ (EvInfomap (cfg (self w)) <$> gs1 ++ [g]))).
Proof.
  revert ps1 w. induction gs1 as [|g1 gs1 IH]; intros ps1 w H1 Hg.
  - change (mapM im_partition ([] ++ g :: gs2))
      with (bind (im_partition g)
                 (fun y => bind (mapM im_partition gs2) (fun ys => ret (y :: ys)))).
    unfold bind at 1. by rewrite im_partition_run, Hg.
  - cbn [rmapM] in H1.
    destruct (detect (cfg (self w)) g1) as [p|e1] eqn:E1; [|done]. cbn [rbind] in H1.
    destruct (rmapM (detect (cfg (self w))) gs1) as [ps|e1] eqn:E2; [|done].
    change (mapM im_partition ((g1 :: gs1) ++ g :: gs2))
      with (bind (im_partition g1)
                 (fun y => bind (mapM im_partition (gs1 ++ g :: gs2))
                                (fun ys => ret (y :: ys)))).
    unfold bind at 1. rewrite im_partition_run, E1.
    unfold bind. rewrite (IH ps) by done. cbn [self trace].
    by rewrite <- app_assoc.
Qed.

(** X3. With several source networks, when the detection raises on one of
    them after returning on all the earlier ones, [partition] raises that
    same exception, the object is exactly as before the call, and the
    detection was called on the networks up to and including the failing
    one and on none after it. *)
Theorem partition_ensemble_aborts_at_first_failure
    (w : World) (gs1 gs2 : list DiGraph) (g : DiGraph) (ps1 : list Partition) (e : exn) :
  nets (self w) = gs1 ++ g :: gs2 ->
  (1 < length (gs1 ++ g :: gs2))%nat ->
  rmapM (detect (cfg (self w))) gs1 = Ok ps1 ->
  detect (cfg (self w)) g = Raise e ->
  partition w
  = (Raise e, mkWorld (self w)
                      (trace w ++ (EvInfomap (cfg (self w)) <$> gs1 ++ [g]))).
Proof.
  intros Hn Hlen H1 Hg.
  rewrite partition_ensemble by (by rewrite Hn).
  by rewrite Hn, (mapM_im_partition_first_failure _ _ _ _ _ _ H1 Hg).
Qed.

(** X4. With one source network, when the resampling returned and the
    detection raises on one replicate after returning on the earlier ones,
    [partition] raises that same exception; the new replicates are stored,
    the partitions and everything else are as before, and the detection was
    called on the replicates up to and including the failing one only. *)
Theorem partition_single_aborts_at_first_failure
    (w : World) (net : DiGraph) (bs1 bs2 : list DiGraph) (b : DiGraph)
    (ps1 : list Partition) (e : exn) :
  nets (self w) = [net] ->
  resample (cfg (self w)) net = Ok (bs1 ++ b :: bs2) ->
  rmapM (detect (cfg (self w))) bs1 = Ok ps1 ->
  detect (cfg (self w)) b = Raise e ->
  partition w
  = (Raise e, mkWorld (set_bootstraps (Some (bs1 ++ b :: bs2)) (self w))
                      (trace w ++ (EvInfomap (cfg (self w)) <$> bs1 ++ [b]))).
Proof.
  intros Hn Hr H1 Hb.
  rewrite (partition_single _ _ Hn), Hr.
  by rewrite (mapM_im_partition_first_failure _ _ _ ps1 e).
Qed.

(** X5. On an object without source networks (built from an empty
    sequence), [is_ensemble] answers false and [partition] raises IndexError (taking the first network of none) and
    leaves the object and the trace of collaborator calls untouched. *)
Theorem partition_empty_sequence (w : World) :
  nets (self w) = [] ->
  (is_ensemble w).1 = Ok false /\
  partition w = (Raise IndexError, w).
Proof.
  intros Hn. split.
  - unfold is_ensemble, bind, get_self, ret. simpl. by rewrite Hn.
  - by apply partition_no_nets.
Qed.

(** *** When the resampling returns and when it raises *)

(** The three ways the body of [bootstrap] can end, each with the inputs
    that lead to it. *)
Lemma resample_cases c net :
  (resample c net = Raise ValueError /\
   (get_edge_attributes net "weight" = [] \/
    seed c < 0 \/
    (existsb np_object (get_edge_attributes net "weight").*2 = false /\
     (forallb lam_valid (num_val <$> (get_edge_attributes net "weight").*2) = false \/
      num_bootstraps c < 0)))) \/
  (resample c net = Raise TypeError /\
   get_edge_attributes net "weight" <> [] /\
   0 <= seed c /\
   existsb np_object (get_edge_attributes net "weight").*2 = true) \/
  (resample c net
   = Ok ((fun row => set_edge_attributes (copy net)
                       (zip (get_edge_attributes net "weight").*1 (PyInt <$> row)))
           <$> draw_rows (seeded_generator (seed c))
                         (num_val <$> (get_edge_attributes net "weight").*2)
                         (Z.to_nat (num_bootstraps c))) /\
   get_edge_attributes net "weight" <> [] /\
   0 <= seed c /\
   weights_accepted (get_edge_attributes net "weight").*2 = true /\
   0 <= num_bootstraps c).
Proof.
  destruct (decide (get_edge_attributes net "weight" = [])) as [H1|H1];
    [left; split; [by apply resample_no_weights | auto]|].
  destruct (decide (seed c < 0)) as [H2|H2].
  { left. split; [|auto]. unfold resample.
    destruct (get_edge_attributes net "weight") as [|it items]; [done|].
    cbn [unzip_items rbind]. unfold default_rng.
    by rewrite bool_decide_eq_true_2. }
  destruct (existsb np_object (get_edge_attributes net "weight").*2) eqn:H3.
  { right; left. split; [|split_and!; [done | lia | done]]. unfold resample.
    destruct (get_edge_attributes net "weight") as [|it items]; [done|].
    cbn [unzip_items rbind]. unfold default_rng.
    rewrite bool_decide_eq_false_2 by done. cbn [rbind].
    unfold poisson, as_double. by rewrite H3. }
  destruct (forallb lam_valid (num_val <$> (get_edge_attributes net "weight").*2)) eqn:H4.
  - destruct (decide (num_bootstraps c < 0)) as [H5|H5].
    + left. split; [|auto]. unfold resample.
      destruct (get_edge_attributes net "weight") as [|it items]; [done|].
      cbn [unzip_items rbind]. unfold default_rng.
      rewrite bool_decide_eq_false_2 by done. cbn [rbind].
      unfold poisson, as_double. rewrite H3. cbn [rbind]. rewrite H4. simpl.
      by rewrite bool_decide_eq_true_2.
    + right; right.
      assert (weights_accepted (get_edge_attributes net "weight").*2 = true) as Hv
        by (unfold weights_accepted; by rewrite H3, H4).
      split; [apply resample_Ok; (done || lia)|]. split_and!; (done || lia).
  - left. split; [|auto]. unfold resample.
    destruct (get_edge_attributes net "weight") as [|it items]; [done|].
    cbn [unzip_items rbind]. unfold default_rng.
    rewrite bool_decide_eq_false_2 by done. cbn [rbind].
    unfold poisson, as_double. rewrite H3. cbn [rbind]. by rewrite H4.
Qed.

Lemma resample_Ok_inv c net bs :
  resample c net = Ok bs ->
  bs = (fun row => set_edge_attributes (copy net)
                     (zip (get_edge_attributes net "weight").*1 (PyInt <$> row)))
         <$> draw_rows (seeded_generator (seed c))
                       (num_val <$> (get_edge_attributes net "weight").*2)
                       (Z.to_nat (num_bootstraps c)) /\
  0 <= num_bootstraps c.
Proof.
  intros Hr.
  destruct (resample_cases c net) as [[Hr' _]|[[Hr' _]|(Hr' & _ & _ & _ & HB)]];
    rewrite Hr' in Hr; [done | done |].
  by injection Hr as <-.
Qed.

Lemma resample_length c net bs :
  resample c net = Ok bs -> Z.of_nat (length bs) = num_bootstraps c.
Proof.
  intros Hr. apply resample_Ok_inv in Hr as [-> HB].
  rewrite length_fmap, draw_rows_length. lia.
Qed.


(** *** What the resampling keeps of the network *)

(** X7. Every replicate of a graph that holds each arc once holds each
    arc once, and an arc without a weight is found in every replicate with
    the very same attributes: only arcs that had a weight get one. *)
Theorem resample_keeps_unweighted_arcs (c : Config) (net : DiGraph) (bs : list DiGraph) :
  wf_graph net ->
  resample c net = Ok bs ->
  Forall (fun b => wf_graph b /\
                   forall k d, (k, d) ∈ g_edges net -> d !! "weight" = None ->
                               (k, d) ∈ g_edges b) bs.
Proof.
  intros Hwf Hr. apply resample_Ok_inv in Hr as [-> _].
  apply Forall_fmap, Forall_forall. intros row Hrow. simpl. split.
  - unfold wf_graph. by rewrite (set_edge_attributes_keys (copy net)).
  - intros k d Hin Hnone. unfold set_edge_attributes. simpl.
    rewrite foldl_update_edge. apply list_elem_of_fmap.
    exists (k, d). split; [|done]. f_equal. symmetry.
    apply apply_attrs_notin. intros Hk.
    assert (k ∈ (get_edge_attributes net "weight").*1) as Hk'.
    { apply list_elem_of_fmap in Hk as ([k' w'] & -> & Hkw).
      apply elem_of_zip_l in Hkw. done. }
    apply get_edge_attributes_keys_subseteq in Hk' as (d' & w' & Hin' & Hw').
    assert (d = d') as ->; [|congruence].
    clear -Hwf Hin Hin'. unfold wf_graph in Hwf.
    induction (g_edges net) as [|[k0 d0] es IH]; [by apply elem_of_nil in Hin|].
    simpl in Hwf. apply NoDup_cons in Hwf as [Hk0 Hwf].
    apply elem_of_cons in Hin as [Heq|Hin]; apply elem_of_cons in Hin' as [Heq'|Hin'].
    + congruence.
    + injection Heq as -> ->. exfalso. apply Hk0.
      apply list_elem_of_fmap. by exists (k0, d').
    + injection Heq' as -> ->. exfalso. apply Hk0.
      apply list_elem_of_fmap. by exists (k0, d).
    + by apply IH.
Qed.

(** *** Successful runs of [partition] *)

Lemma partition_ensemble_Ok w ps :
  (1 < length (nets (self w)))%nat ->
  rmapM (detect (cfg (self w))) (nets (self w)) = Ok ps ->
  partition w
  = (Ok tt, mkWorld (set_partitions (Some ps) (self w))
                    (trace w ++ (EvInfomap (cfg (self w)) <$> nets (self w)))).
Proof.
  intros Hlen Hps. rewrite (partition_ensemble _ Hlen).
  by rewrite (mapM_im_partition_Ok _ _ _ Hps).
Qed.

Lemma partition_single_Ok w net bs ps :
  nets (self w) = [net] ->
  resample (cfg (self w)) net = Ok bs ->
  rmapM (detect (cfg (self w))) bs = Ok ps ->
  partition w
  = (Ok tt, mkWorld (set_partitions (Some ps) (set_bootstraps (Some bs) (self w)))
                    (trace w ++ (EvInfomap (cfg (self w)) <$> bs))).
Proof.
  intros Hn Hr Hps. rewrite (partition_single _ _ Hn), Hr.
  by rewrite (mapM_im_partition_Ok _ ps).
Qed.

(** A call that returned went through one of the two branches to its end. *)
Lemma partition_Ok_inv w :
  (partition w).1 = Ok tt ->
  ((1 < length (nets (self w)))%nat /\
   exists ps, rmapM (detect (cfg (self w))) (nets (self w)) = Ok ps) \/
  (exists net bs ps,
     nets (self w) = [net] /\
     resample (cfg (self w)) net = Ok bs /\
     rmapM (detect (cfg (self w))) bs = Ok ps).
Proof.
  intros Hp. destruct (nets (self w)) as [|net [|net2 rest]] eqn:Hn.
  - by rewrite (partition_no_nets _ Hn) in Hp.
  - right. rewrite (partition_single _ _ Hn) in Hp.
    destruct (resample (cfg (self w)) net) as [bs|e] eqn:Hr; [|done].
    exists net, bs.
    match type of Hp with context [mapM im_partition ?l ?w0] =>
      pose proof (mapM_im_partition_result l w0) as Hres;
      destruct (mapM im_partition l w0) as [[ps|e] w1] end; [|done].
    exists ps. by simpl in Hres.
  - left. assert (1 < length (nets (self w)))%nat as Hlen by (rewrite Hn; simpl; lia).
    rewrite Hn in Hlen. split; [done|].
    rewrite <- Hn in Hlen. rewrite (partition_ensemble _ Hlen) in Hp.
    pose proof (mapM_im_partition_result (nets (self w)) w) as Hres.
    destruct (mapM im_partition (nets (self w)) w) as [[ps|e] w1]; [|done].
    exists ps. rewrite <- Hn. by simpl in Hres.
Qed.




(** X9. After a call of [partition] that returned, the partitions are
    stored, one per source network or, with a single network, one per
    configured replicate; [sigclu] then finds them and its outcome is the
    collaborator's alone: it cannot raise MissingResultError on its own. *)
Theorem partition_then_sigclu (w : World) (u : option Options) (kw : Options) :
  (partition w).1 = Ok tt ->
  exists ps : list Partition,
    partitions (self (partition w).2) = Some ps /\
    Z.of_nat (length ps)
    = (if bool_decide (1 < length (nets (self w)))%nat
       then Z.of_nat (length (nets (self w)))
       else num_bootstraps (cfg (self w))) /\
    (sigclu u kw (partition w).2).1
    = match SigClu_run ps kw with
      | Raise e => Raise e
      | Ok _ => match u with
                | None => Ok tt
                | Some u' => SigClu_upset ps kw u'
                end
      end.
Proof.
  intros Hp.
  assert (forall w' ps, partitions (self w') = Some ps ->
            (sigclu u kw w').1
            = match SigClu_run ps kw with
              | Raise e => Raise e
              | Ok _ => match u with
                        | None => Ok tt
                        | Some u' => SigClu_upset ps kw u'
                        end
              end) as Hsig.
  { intros w' ps Hps'. unfold sigclu, bind, get_self, emit, lift, modify_self, ret.
    rewrite Hps'. simpl. destruct (SigClu_run ps kw); simpl; [|done].
    destruct u as [u'|]; simpl; [|done]. by destruct (SigClu_upset ps kw u'). }
  apply partition_Ok_inv in Hp as [[Hlen [ps Hps]]|(net & bs & ps & Hn & Hr & Hps)].
  - exists ps. rewrite (partition_ensemble_Ok _ _ Hlen Hps). cbn [snd].
    split_and!; [done | | by apply Hsig].
    rewrite bool_decide_eq_true_2 by done. by rewrite (rmapM_length _ _ _ Hps).
  - exists ps. rewrite (partition_single_Ok _ _ _ _ Hn Hr Hps). cbn [snd].
    split_and!; [done | | by apply Hsig].
    rewrite bool_decide_eq_false_2 by (rewrite Hn; simpl; lia).
    rewrite (rmapM_length _ _ _ Hps). by apply resample_length in Hr.
Qed.

(** *** The stored replicates over the life of an object *)

Lemma partition_bootstraps w :
  cfg (self (partition w).2) = cfg (self w) /\
  (bootstraps (self (partition w).2) = bootstraps (self w) \/
   exists net bs, resample (cfg (self w)) net = Ok bs /\
                  bootstraps (self (partition w).2) = Some bs).
Proof.
  destruct (nets (self w)) as [|net [|net2 rest]] eqn:Hn.
  - rewrite (partition_no_nets _ Hn). auto.
  - rewrite (partition_single _ _ Hn).
    destruct (resample (cfg (self w)) net) as [bs|e] eqn:Hr; [|auto].
    match goal with |- context [mapM im_partition ?l ?w0] =>
      pose proof (mapM_im_partition_self l w0) as Hs;
      destruct (mapM im_partition l w0) as [[ps|e] w1] end;
      simpl in *; rewrite Hs; (split; [done|]); right; by exists net, bs.
  - rewrite partition_ensemble by (rewrite Hn; simpl; lia).
    pose proof (mapM_im_partition_self (nets (self w)) w) as Hs.
    destruct (mapM im_partition (nets (self w)) w) as [[ps|e] w1];
      simpl in *; rewrite Hs; auto.
Qed.

Lemma nodes_frame w :
  cfg (self (nodes w).2) = cfg (self w) /\
  bootstraps (self (nodes w).2) = bootstraps (self w).
Proof.
  unfold nodes, bind, get_self, modify_self, ret.
  by destruct (nodes_cache (self w)).
Qed.

Lemma unstable_nodes_frame w :
  cfg (self (unstable_nodes w).2) = cfg (self w) /\
  bootstraps (self (unstable_nodes w).2) = bootstraps (self w).
Proof.
  unfold unstable_nodes, bind, get_self, raise, ret.
  destruct (cores (self w)); [|done].
  destruct (nodes_frame w). by destruct (nodes w) as [[n|e] w1].
Qed.

(** No step changes the configuration, and a step that changes the stored
    replicates stores the result of a resampling under it. *)
Lemma step_bootstraps w w' :
  step w w' ->
  cfg (self w') = cfg (self w) /\
  (bootstraps (self w') = bootstraps (self w) \/
   exists net bs, resample (cfg (self w)) net = Ok bs /\ bootstraps (self w') = Some bs).
Proof.
  intros Hs. destruct Hs.
  - destruct (nodes_frame w); auto.
  - destruct (unstable_nodes_frame w); auto.
  - auto.
  - assert ((is_bootstrapped w).2 = w) as ->; [|auto].
    unfold is_bootstrapped, bind, get_self, raise, ret.
    by destruct (bootstraps (self w)).
  - rewrite bootstrap_unfold.
    destruct (resample (cfg (self w)) net) as [bs|e] eqn:Hr; [|auto].
    split; [done|]. right. by exists net, bs.
  - rewrite im_partition_run. auto.
  - apply partition_bootstraps.
  - unfold sigclu, bind, get_self, emit, lift, modify_self, raise, ret; simpl.
    destruct (partitions (self w)) as [ps|]; simpl; [|auto].
    destruct (SigClu_run ps kw) as [c|e]; simpl; [|auto].
    destruct u as [u|]; simpl; [|auto].
    destruct (SigClu_upset ps kw u); auto.
  - auto.
Qed.

(** X10. Over the whole life of an object, whatever is called on it and
    even if its source networks are replaced, the stored replicates are
    either absent or exactly as many as configured: [is_bootstrapped] raises
    TypeError or answers true, and never answers false. *)
Theorem is_bootstrapped_never_false (net : net_arg) (o : ConfigOptions) (w : World) :
  reachable (new_world net o) w ->
  (bootstraps (self w) = None /\ is_bootstrapped w = (Raise TypeError, w)) \/
  (exists bs, bootstraps (self w) = Some bs /\
              Z.of_nat (length bs) = num_bootstraps (make_config o) /\
              is_bootstrapped w = (Ok true, w)).
Proof.
  intros Hr.
  assert (cfg (self w) = make_config o /\
          forall bs, bootstraps (self w) = Some bs ->
                     Z.of_nat (length bs) = num_bootstraps (make_config o)) as [Hc Hb].
  { revert w Hr. apply rtc_ind_r; [done|].
    intros w1 w2 _ Hstep [Hc Hb].
    destruct (step_bootstraps _ _ Hstep) as [Hc' [Hsame|(g & bs' & Hres & Hnew)]].
    - split; [congruence|]. intros bs. rewrite Hsame. apply Hb.
    - split; [congruence|]. intros bs. rewrite Hnew. intros [= <-].
      apply resample_length in Hres. congruence. }
  destruct (bootstraps (self w)) as [bs|] eqn:E.
  - right. exists bs. split; [done|]. split; [by apply Hb|].
    rewrite (is_bootstrapped_after _ _ E), Hc.
    by rewrite bool_decide_eq_true_2 by (by apply Hb).
  - left. split; [done|].
    unfold is_bootstrapped, bind, get_self, raise. by rewrite E.
Qed.

(** X11. With one source network, as soon as the resampling inside
    [partition] returned, [is_bootstrapped] answers true after the call,
    whether the detection then returned or raised, and changes nothing. *)
Theorem is_bootstrapped_after_partition_single (w : World) (net : DiGraph) (bs : list DiGraph) :
  nets (self w) = [net] ->
  resample (cfg (self w)) net = Ok bs ->
  is_bootstrapped (partition w).2 = (Ok true, (partition w).2).
Proof.
  intros Hn Hr.
  assert (bootstraps (self (partition w).2) = Some bs /\
          cfg (self (partition w).2) = cfg (self w)) as [Hb Hc].
  { rewrite (partition_single _ _ Hn), Hr.
    match goal with |- context [mapM im_partition ?l ?w0] =>
      pose proof (mapM_im_partition_self l w0) as Hs;
      destruct (mapM im_partition l w0) as [[ps|e] w1] end;
      simpl in *; by rewrite Hs. }
  rewrite (is_bootstrapped_after _ _ Hb), Hc.
  by rewrite bool_decide_eq_true_2 by (by apply resample_length in Hr).
Qed.

(** X12. With several source networks, [partition] does not make the
    object bootstrapped: on an object without stored replicates,
    [is_bootstrapped] still raises TypeError after the call, even when the
    call returned and the partitions are stored. *)
Theorem is_bootstrapped_after_partition_ensemble (w : World) :
  (1 < length (nets (self w)))%nat ->
  bootstraps (self w) = None ->
  is_bootstrapped (partition w).2 = (Raise TypeError, (partition w).2).
Proof.
  intros Hlen Hnone.
  assert (bootstraps (self (partition w).2) = None) as Hb.
  { rewrite (partition_ensemble _ Hlen).
    pose proof (mapM_im_partition_self (nets (self w)) w) as Hs.
    destruct (mapM im_partition (nets (self w)) w) as [[ps|e] w1];
      simpl in *; by rewrite Hs. }
  unfold is_bootstrapped, bind, get_self, raise. by rewrite Hb.
Qed.

(** *** [sigclu] and the cores *)

(** X13. When the clustering collaborator raises, [sigclu] raises the
    same exception, the object (its earlier cores included) is unchanged
    and no export is attempted.  When the clustering returns and the export
    raises, [sigclu] raises the export's exception, but the new cores are
    already stored. *)
Theorem sigclu_propagates_failures
    (w : World) (u : option Options) (kw : Options) (ps : list Partition) (e : exn) :
  partitions (self w) = Some ps ->
  (SigClu_run ps kw = Raise e ->
   sigclu u kw w = (Raise e, mkWorld (self w) (trace w ++ [EvSigClu ps]))) /\
  (forall (c : Partition) (u' : Options),
     SigClu_run ps kw = Ok c ->
     u = Some u' ->
     SigClu_upset ps kw u' = Raise e ->
     sigclu u kw w
     = (Raise e, mkWorld (set_cores (Some c) (self w))
                         (trace w ++ [EvSigClu ps; EvUpset]))).
Proof.
  intros Hp. split.
  - intros Hrun. unfold sigclu, bind, get_self, emit, lift.
    rewrite Hp. simpl. by rewrite Hrun.
  - intros c u' Hrun -> Hup.
    unfold sigclu, bind, get_self, emit, lift, modify_self.
    rewrite Hp. simpl. rewrite Hrun. simpl. rewrite Hup.
    by rewrite <- app_assoc.
Qed.

(** X14. After a call of [sigclu] that returned, [unstable_nodes] no
    longer raises: it returns the node union minus the nodes of the cores
    the clustering returned for the stored partitions. *)
Theorem unstable_nodes_after_sigclu (w : World) (u : option Options) (kw : Options) :
  (sigclu u kw w).1 = Ok tt ->
  exists (ps : list Partition) (c : Partition) (n : NodeSet),
    partitions (self w) = Some ps /\
    SigClu_run ps kw = Ok c /\
    (nodes (sigclu u kw w).2).1 = Ok n /\
    (unstable_nodes (sigclu u kw w).2).1 = Ok (n ∖ flatten_partition c).
Proof.
  intros Hs.
  destruct (partitions (self w)) as [ps|] eqn:Hp;
    [|by unfold sigclu, bind, get_self, raise in Hs; rewrite Hp in Hs].
  destruct (SigClu_run ps kw) as [c|e] eqn:Hrun;
    [|by unfold sigclu, bind, get_self, emit, lift in Hs;
         rewrite Hp in Hs; simpl in Hs; rewrite Hrun in Hs].
  assert (cores (self (sigclu u kw w).2) = Some c) as Hc.
  { unfold sigclu, bind, get_self, emit, lift, modify_self, ret.
    rewrite Hp. simpl. rewrite Hrun. simpl.
    destruct u as [u'|]; simpl; [|done]. by destruct (SigClu_upset ps kw u'). }
  destruct (nodes_fills_cache (sigclu u kw w).2) as (n & Hn & _).
  exists ps, c, n. split_and!; [done | done | done |].
  destruct (nodes (sigclu u kw w).2) as [r w'] eqn:E. simpl in Hn. subst r.
  by rewrite (unstable_nodes_value _ _ _ _ Hc E).
Qed.

(** X15. [unstable_nodes] and the cores split the node union: the result
    is part of the node union, and a node of the union is unstable exactly
    when no node set of the cores contains it. *)
Theorem unstable_nodes_complement (w : World) (c : Partition) :
  cores (self w) = Some c ->
  exists n v : NodeSet,
    (nodes w).1 = Ok n /\
    (unstable_nodes w).1 = Ok v /\
    v ⊆ n /\
    forall x : Node, x ∈ n -> (x ∈ v <-> ~ exists s : NodeSet, s ∈ c /\ x ∈ s).
Proof.
  intros Hc. destruct (nodes_fills_cache w) as (n & Hn & _).
  destruct (nodes w) as [r w'] eqn:E. simpl in Hn. subst r.
  exists n, (n ∖ flatten_partition c).
  rewrite (unstable_nodes_value _ _ _ _ Hc E). split_and!; [done | done | |].
  - intros x Hx. by apply elem_of_difference in Hx as [Hx _].
  - intros x Hx. unfold flatten_partition.
    rewrite elem_of_difference, elem_of_union_list. split.
    + by intros [_ Hno].
    + intros Hno. by split.
Qed.

(** X16. [unstable_nodes] reads the node union from the cache: once
    [nodes] was read on a new object, replacing the source networks or
    running any method does not change the node union that later values of
    [unstable_nodes] are taken from. *)
Theorem unstable_nodes_uses_cached_nodes
    (net : net_arg) (o : ConfigOptions) (w : World) (c : Partition) :
  reachable (nodes (new_world net o)).2 w ->
  cores (self w) = Some c ->
  unstable_nodes w
  = (Ok (⋃ (node_set <$> nets (init net o)) ∖ flatten_partition c), w).
Proof.
  intros Hr Hc. apply unstable_nodes_value; [done|].
  apply nodes_cached_value. eapply reachable_keeps_cache; [exact Hr|].
  by rewrite nodes_fresh.
Qed.

(** X17. [partition] does not touch the cores or the cached node union:
    whatever it does, [unstable_nodes] gives right after it what it gave
    right before it, the value computed against the cores of an earlier
    clustering or the same MissingResultError. *)
Theorem unstable_nodes_unchanged_by_partition (w : World) :
  cores (self (partition w).2) = cores (self w) /\
  (unstable_nodes (partition w).2).1 = (unstable_nodes w).1.
Proof.
  assert (cores (self (partition w).2) = cores (self w) /\
          nodes_cache (self (partition w).2) = nodes_cache (self w) /\
          nets (self (partition w).2) = nets (self w)) as (Hc & Hcache & Hn).
  { destruct (nets (self w)) as [|net [|net2 rest]] eqn:Hn.
    - by rewrite (partition_no_nets _ Hn).
    - rewrite (partition_single _ _ Hn).
      destruct (resample (cfg (self w)) net) as [bs|e]; [|done].
      match goal with |- context [mapM im_partition ?l ?w0] =>
        pose proof (mapM_im_partition_self l w0) as Hs;
        destruct (mapM im_partition l w0) as [[ps|e] w1] end;
        simpl in *; by rewrite Hs.
    - rewrite partition_ensemble by (rewrite Hn; simpl; lia).
      pose proof (mapM_im_partition_self (nets (self w)) w) as Hs.
      destruct (mapM im_partition (nets (self w)) w) as [[ps|e] w1];
        simpl in *; by rewrite Hs, ?Hn. }
  split; [done|].
  unfold unstable_nodes, bind, get_self, raise, ret, nodes, bind, get_self,
    modify_self, ret.
  rewrite Hc. destruct (cores (self w)); [|done].
  rewrite Hcache. destruct (nodes_cache (self w)); [done|]. simpl. by rewrite Hn.
Qed.

(** X18. The weights of a replicate are whole numbers: every weight found
    on an arc of a replicate of a graph that holds each arc once is the
    image of an integer draw, whatever the weights of the input were. *)
Theorem resample_weights_are_integers (c : Config) (net : DiGraph) (bs : list DiGraph) :
  wf_graph net ->
  resample c net = Ok bs ->
  Forall (fun b => forall k (x : num), (k, x) ∈ get_edge_attributes b "weight" ->
                                       exists z : Z, x = PyInt z) bs.
Proof.
  intros Hwf Hr. apply resample_Ok_inv in Hr as [-> _].
  apply Forall_fmap, Forall_forall. intros row Hrow k x. simpl.
  pose proof (draw_rows_rows (seeded_generator (seed c))
                (num_val <$> (get_edge_attributes net "weight").*2)
                (Z.to_nat (num_bootstraps c))) as Hall.
  rewrite Forall_forall in Hall. destruct (Hall row Hrow) as [Hlen _].
  rewrite set_edge_attributes_weights
    by (done || by rewrite length_fmap, Hlen, !length_fmap).
  intros Hin. apply elem_of_zip_r in Hin.
  apply list_elem_of_fmap in Hin as (z & -> & _). by exists z.
Qed.

End MoreProperties.

(** ** The properties at work on the small instance *)

(** An equation between closed terms, checked by evaluation of both sides. *)
Ltac by_evaluation :=
  lazymatch goal with
  | |- @eq ?T _ ?b => vm_cast_no_check (@eq_refl T b)
  end.

Module Witness.
Import Demo.


Lemma unstable_nodes_requires_cores_witness :
  cores (self w_single) = None /\
  unstable_nodes w_single = (Raise MissingResultError, w_single) /\
  forall v : NodeSet, (unstable_nodes w_single).1 <> Ok v.
Proof.
  split; [reflexivity|].
  apply (unstable_nodes_requires_cores w_single). reflexivity.
Defined.

Lemma nodes_computed_once_and_cached_witness :
  let w := (@sigclu demo None 0 (partition w_pair).2).2 in
  let w1 := (nodes w).2 in
  let w2 := (partition (mkWorld (set_nets [net4] (self w1)) (trace w1))).2 in
  used w_pair w /\
  reachable w1 w2 /\
  (nodes w).1 = Ok (node_set net3a ∪ (node_set net3b ∪ ∅)) /\
  nodes_cache (self w1) = Some (node_set net3a ∪ (node_set net3b ∪ ∅)) /\
  nodes w2 = (Ok (node_set net3a ∪ (node_set net3b ∪ ∅)), w2).
Proof.
  intros w w1 w2.
  assert (used w_pair w) as Hu.
  { eapply rtc_l; [apply call_partition |].
    eapply rtc_l; [apply (@call_sigclu demo None 0) | apply rtc_refl]. }
  assert (reachable w1 w2) as Hr.
  { eapply rtc_l; [apply (step_mutate_nets [net4]) |].
    eapply rtc_l; [apply step_partition | apply rtc_refl]. }
  split; [exact Hu|]. split; [exact Hr|].
  exact (nodes_computed_once_and_cached (NetSeq [net3a; net3b]) no_options w w2 Hu Hr).
Defined.

Lemma unstable_nodes_is_difference_witness :
  cores (self w_cores) = Some [{[A; B]}] /\
  exists (n : NodeSet) (w' : World),
    nodes w_cores = (Ok n, w') /\
    nodes_cache (self w') = Some n /\
    unstable_nodes w_cores = (Ok (n ∖ flatten_partition [{[A; B]}]), w') /\
    (forall s : NodeSet, s ∈ [({[A; B]} : NodeSet)] -> (n ∖ flatten_partition [{[A; B]}]) ## s) /\
    (forall c2 : Partition,
        unstable_nodes (mkWorld (set_cores (Some c2) (self w')) (trace w'))
        = (Ok (n ∖ flatten_partition c2),
           mkWorld (set_cores (Some c2) (self w')) (trace w'))).
Proof.
  split; [reflexivity|].
  apply (unstable_nodes_is_difference w_cores). reflexivity.
Defined.

Lemma sigclu_requires_partitions_witness :
  let w1 := (partition w_pair).2 in
  (partitions (self w_pair) = None /\
   @sigclu demo None 0 w_pair = (Raise MissingResultError, w_pair)) /\
  exists (ps : list Partition) (c : Partition),
    partitions (self w1) = Some ps /\
    @SigClu_run demo ps 0 = Ok c /\
    cores (self (@sigclu demo (Some (-1)) 0 w1).2) = Some c /\
    partitions (self (@sigclu demo (Some (-1)) 0 w1).2) = Some ps /\
    (@sigclu demo (Some (-1)) 0 w1).1 = Raise (CollaboratorError 3).
Proof.
  intros w1. split.
  - split; [reflexivity|].
    apply (@sigclu_requires_partitions demo w_pair None 0). reflexivity.
  - assert (partitions (self w1) = Some pair_partitions) as Hps by by_evaluation.
    assert (@SigClu_run demo pair_partitions 0 = Ok pair_cores) as Hc by by_evaluation.
    exists pair_partitions, pair_cores.
    destruct (proj2 (@sigclu_requires_partitions demo w1 (Some (-1)) 0)
                _ _ Hps Hc) as (H1 & H2 & _).
    split_and!; [exact Hps | exact Hc | exact H1 | exact H2 | by_evaluation].
Defined.

Lemma bootstrap_no_weights_not_ResamplingError :
  get_edge_attributes net_unweighted "weight" = [] /\
  (bootstrap net_unweighted w_single).1 = Raise ValueError /\
  (bootstrap net_unweighted w_single).1 <> Raise ResamplingError.
Proof. split_and!; [reflexivity | reflexivity | discriminate]. Qed.

Lemma bootstrap_no_weights_raises_ValueError_witness :
  get_edge_attributes net_unweighted "weight" = [] /\
  bootstrap net_unweighted w_single = (Raise ValueError, w_single).
Proof.
  split; [reflexivity|].
  apply (bootstrap_no_weights_raises_ValueError net_unweighted w_single). reflexivity.
Defined.


Lemma bootstrap_deterministic_witness :
  let w2 := (@sigclu demo None 0 (partition (bootstrap net_light w_single).2).2).2 in
  seed (cfg (self w_single)) = seed (cfg (self w2)) /\
  num_bootstraps (cfg (self w_single)) = num_bootstraps (cfg (self w2)) /\
  (bootstrap net4 w_single).1 = (bootstrap net4 w2).1 /\
  ((bootstrap net4 w_single).1 = Ok tt ->
   exists bs, bootstraps (self (bootstrap net4 w_single).2) = Some bs /\
              bootstraps (self (bootstrap net4 w2).2) = Some bs).
Proof.
  intros w2.
  assert (seed (cfg (self w_single)) = seed (cfg (self w2))) as Hs
    by (vm_compute; reflexivity).
  assert (num_bootstraps (cfg (self w_single)) = num_bootstraps (cfg (self w2))) as Hb
    by (vm_compute; reflexivity).
  split; [exact Hs|]. split; [exact Hb|].
  exact (bootstrap_deterministic net4 w_single w2 Hs Hb).
Defined.


Lemma partition_failure_keeps_partitions_witness :
  let w' := (partition w_light).2 in
  partition w_light = (Raise (CollaboratorError 1), w') /\
  length (trace w') = 4%nat /\
  partitions (self w') = partitions (self w_light) /\
  forall (net : DiGraph) (bs : list DiGraph),
    nets (self w_light) = [net] ->
    resample (cfg (self w_light)) net = Ok bs ->
    bootstraps (self w') = Some bs.
Proof.
  intros w'.
  assert (partition w_light = (Raise (CollaboratorError 1), w')) as Hp
    by (vm_compute; reflexivity).
  split; [exact Hp|]. split; [vm_compute; reflexivity|].
  exact (partition_failure_keeps_partitions w_light w' _ Hp).
Defined.

End Witness.

Module Examples.
Import Demo.

Lemma group_modules_disjoint_witness :
  (forall x m1 m2, (x, m1) ∈ rows4 -> (x, m2) ∈ rows4 -> m1 = m2) /\
  group_modules rows4 !! 0%nat = Some {[B; D]} /\
  group_modules rows4 !! 1%nat = Some {[A; C]} /\
  ({[B; D]} : NodeSet) ## {[A; C]}.
Proof.
  assert (forall x m1 m2, (x, m1) ∈ rows4 -> (x, m2) ∈ rows4 -> m1 = m2) as Hfun.
  { apply rows_functional. eapply bool_decide_unpack. vm_compute. exact I. }
  assert (group_modules rows4 !! 0%nat = Some ({[B; D]} : NodeSet)) as H0
    by by_evaluation.
  assert (group_modules rows4 !! 1%nat = Some ({[A; C]} : NodeSet)) as H1
    by by_evaluation.
  split; [exact Hfun|]. split; [exact H0|]. split; [exact H1|].
  apply (group_modules_disjoint rows4 0 1 _ _ Hfun); [lia | exact H0 | exact H1].
Defined.

Lemma partition_ensemble_aborts_at_first_failure_witness :
  nets (self w_broken) = [net3a] ++ net_dead :: [net3b] /\
  (exists ps1, rmapM (detect (cfg (self w_broken))) [net3a] = Ok ps1) /\
  detect (cfg (self w_broken)) net_dead = Raise (CollaboratorError 1) /\
  partition w_broken
  = (Raise (CollaboratorError 1),
     mkWorld (self w_broken)
             (trace w_broken ++ (EvInfomap (cfg (self w_broken)) <$> [net3a] ++ [net_dead]))).
Proof.
  assert (rmapM (detect (cfg (self w_broken))) [net3a] = Ok (take 1 pair_detected)) as H1
    by by_evaluation.
  assert (detect (cfg (self w_broken)) net_dead = Raise (CollaboratorError 1)) as Hg
    by by_evaluation.
  split; [reflexivity|]. split; [by exists (take 1 pair_detected)|]. split; [exact Hg|].
  apply (partition_ensemble_aborts_at_first_failure
           w_broken [net3a] [net3b] net_dead (take 1 pair_detected) (CollaboratorError 1));
    [reflexivity | simpl; lia | exact H1 | exact Hg].
Defined.

Lemma partition_single_aborts_at_first_failure_witness :
  let bs1 := take 3 light_replicates in
  let b := default net_light (light_replicates !! 3%nat) in
  let bs2 := drop 4 light_replicates in
  nets (self w_light) = [net_light] /\
  resample (cfg (self w_light)) net_light = Ok (bs1 ++ b :: bs2) /\
  length (bs1 ++ b :: bs2) = 10%nat /\
  detect (cfg (self w_light)) b = Raise (CollaboratorError 1) /\
  partition w_light
  = (Raise (CollaboratorError 1),
     mkWorld (set_bootstraps (Some (bs1 ++ b :: bs2)) (self w_light))
             (trace w_light ++ (EvInfomap (cfg (self w_light)) <$> bs1 ++ [b]))).
Proof.
  intros bs1 b bs2.
  assert (resample (cfg (self w_light)) net_light = Ok (bs1 ++ b :: bs2)) as Hr
    by by_evaluation.
  assert (detect (cfg (self w_light)) b = Raise (CollaboratorError 1)) as Hb
    by by_evaluation.
  pose (ps1 := match rmapM (detect (cfg (self w_light))) bs1 with
               | Ok ps => ps
               | Raise _ => []
               end).
  assert (rmapM (detect (cfg (self w_light))) bs1 = Ok ps1) as H1 by by_evaluation.
  split; [reflexivity|]. split; [exact Hr|]. split; [by_evaluation|].
  split; [exact Hb|].
  exact (partition_single_aborts_at_first_failure
           w_light net_light bs1 bs2 b ps1 (CollaboratorError 1) eq_refl Hr H1 Hb).
Defined.

Lemma partition_empty_sequence_witness :
  nets (self w_none) = [] /\
  (is_ensemble w_none).1 = Ok false /\
  partition w_none = (Raise IndexError, w_none).
Proof.
  split; [reflexivity|]. apply (partition_empty_sequence w_none). reflexivity.
Defined.

Lemma resample_keeps_unweighted_arcs_witness :
  wf_graph net_mixed /\
  exists bs : list DiGraph,
    resample (cfg (self w_single)) net_mixed = Ok bs /\
    length bs = 10%nat /\
    Forall (fun b => wf_graph b /\
                     forall k d, (k, d) ∈ g_edges net_mixed -> d !! "weight" = None ->
                                 (k, d) ∈ g_edges b) bs.
Proof.
  assert (wf_graph net_mixed) as Hwf
    by (unfold wf_graph; eapply bool_decide_unpack; vm_compute; exact I).
  split; [exact Hwf|].
  assert (resample (cfg (self w_single)) net_mixed = Ok mixed_replicates) as Hr
    by by_evaluation.
  exists mixed_replicates. split; [exact Hr|]. split; [by_evaluation|].
  exact (resample_keeps_unweighted_arcs _ net_mixed mixed_replicates Hwf Hr).
Defined.

Lemma resample_weights_are_integers_witness :
  wf_graph net4 /\
  exists bs : list DiGraph,
    resample (cfg (self w_single)) net4 = Ok bs /\
    Forall (fun b => forall k (x : num), (k, x) ∈ get_edge_attributes b "weight" ->
                                         exists z : Z, x = PyInt z) bs.
Proof.
  assert (wf_graph net4) as Hwf
    by (unfold wf_graph; eapply bool_decide_unpack; vm_compute; exact I).
  split; [exact Hwf|].
  assert (resample (cfg (self w_single)) net4 = Ok single_replicates) as Hr
    by by_evaluation.
  exists single_replicates. split; [exact Hr|].
  exact (resample_weights_are_integers _ net4 single_replicates Hwf Hr).
Defined.

Lemma partition_then_sigclu_witness :
  (partition w_single).1 = Ok tt /\
  exists ps : list Partition,
    partitions (self (partition w_single).2) = Some ps /\
    Z.of_nat (length ps) = 10 /\
    (@sigclu demo (Some 1) 0 (partition w_single).2).1
    = match @SigClu_run demo ps 0 with
      | Raise e => Raise e
      | Ok _ => @SigClu_upset demo ps 0 1
      end.
Proof.
  assert ((partition w_single).1 = Ok tt) as Hp by by_evaluation.
  split; [exact Hp|].
  destruct (@partition_then_sigclu demo w_single (Some 1) 0 Hp) as (ps & H1 & H2 & H3).
  exists ps. split; [exact H1|]. split; [exact H2|]. exact H3.
Defined.

Lemma is_bootstrapped_never_false_witness :
  let w := (@sigclu demo None 0 (partition (new_world (OneNet net4) (options 42 10))).2).2 in
  reachable (new_world (OneNet net4) (options 42 10)) w /\
  ((bootstraps (self w) = None /\ is_bootstrapped w = (Raise TypeError, w)) \/
   (exists bs, bootstraps (self w) = Some bs /\
               Z.of_nat (length bs) = num_bootstraps (make_config (options 42 10)) /\
               is_bootstrapped w = (Ok true, w))).
Proof.
  intros w.
  assert (reachable (new_world (OneNet net4) (options 42 10)) w) as Hr.
  { eapply rtc_l; [apply step_partition |].
    eapply rtc_l; [apply (@step_sigclu demo None 0) | apply rtc_refl]. }
  split; [exact Hr|].
  exact (is_bootstrapped_never_false (OneNet net4) (options 42 10) w Hr).
Defined.

Lemma is_bootstrapped_after_partition_single_witness :
  nets (self w_light) = [net_light] /\
  resample (cfg (self w_light)) net_light = Ok light_replicates /\
  (partition w_light).1 = Raise (CollaboratorError 1) /\
  is_bootstrapped (partition w_light).2 = (Ok true, (partition w_light).2).
Proof.
  assert (resample (cfg (self w_light)) net_light = Ok light_replicates) as Hr
    by by_evaluation.
  split; [reflexivity|]. split; [exact Hr|]. split; [by_evaluation|].
  exact (is_bootstrapped_after_partition_single w_light net_light light_replicates
           eq_refl Hr).
Defined.

Lemma is_bootstrapped_after_partition_ensemble_witness :
  (1 < length (nets (self w_pair)))%nat /\
  bootstraps (self w_pair) = None /\
  (partition w_pair).1 = Ok tt /\
  is_bootstrapped (partition w_pair).2 = (Raise TypeError, (partition w_pair).2).
Proof.
  assert (1 < length (nets (self w_pair)))%nat as Hlen by (vm_compute; lia).
  split; [exact Hlen|]. split; [reflexivity|]. split; [by_evaluation|].
  exact (is_bootstrapped_after_partition_ensemble w_pair Hlen eq_refl).
Defined.

Lemma sigclu_propagates_failures_witness :
  (partitions (self w_no_partitions) = Some [] /\
   @SigClu_run demo [] 0 = Raise (CollaboratorError 2) /\
   @sigclu demo None 0 w_no_partitions
   = (Raise (CollaboratorError 2),
      mkWorld (self w_no_partitions) (trace w_no_partitions ++ [EvSigClu []]))) /\
  (let w1 := (partition w_pair).2 in
   partitions (self w1) = Some pair_partitions /\
   @SigClu_run demo pair_partitions 0 = Ok pair_cores /\
   @SigClu_upset demo pair_partitions 0 (-1) = Raise (CollaboratorError 3) /\
   @sigclu demo (Some (-1)) 0 w1
   = (Raise (CollaboratorError 3),
      mkWorld (set_cores (Some pair_cores) (self w1))
              (trace w1 ++ [EvSigClu pair_partitions; EvUpset]))).
Proof.
  split.
  - split; [reflexivity|]. split; [reflexivity|].
    apply (proj1 (@sigclu_propagates_failures demo w_no_partitions None 0 []
                    (CollaboratorError 2) eq_refl)).
    reflexivity.
  - intros w1.
    assert (partitions (self w1) = Some pair_partitions) as Hps by by_evaluation.
    assert (@SigClu_run demo pair_partitions 0 = Ok pair_cores) as Hc by by_evaluation.
    split; [exact Hps|]. split; [exact Hc|]. split; [reflexivity|].
    exact (proj2 (@sigclu_propagates_failures demo w1 (Some (-1)) 0 pair_partitions
                    (CollaboratorError 3) Hps) pair_cores (-1) Hc eq_refl eq_refl).
Defined.

Lemma unstable_nodes_after_sigclu_witness :
  let w1 := (partition w_pair).2 in
  (@sigclu demo None 0 w1).1 = Ok tt /\
  exists (ps : list Partition) (c : Partition) (n : NodeSet),
    partitions (self w1) = Some ps /\
    @SigClu_run demo ps 0 = Ok c /\
    (nodes (@sigclu demo None 0 w1).2).1 = Ok n /\
    (unstable_nodes (@sigclu demo None 0 w1).2).1 = Ok (n ∖ flatten_partition c).
Proof.
  intros w1.
  assert ((@sigclu demo None 0 w1).1 = Ok tt) as Hs by by_evaluation.
  split; [exact Hs|]. exact (@unstable_nodes_after_sigclu demo w1 None 0 Hs).
Defined.

Lemma unstable_nodes_complement_witness :
  cores (self w_cores) = Some [{[A; B]}] /\
  exists n v : NodeSet,
    (nodes w_cores).1 = Ok n /\
    (unstable_nodes w_cores).1 = Ok v /\
    v ⊆ n /\
    forall x : Node, x ∈ n ->
      (x ∈ v <-> ~ exists s : NodeSet, s ∈ [({[A; B]} : NodeSet)] /\ x ∈ s).
Proof.
  split; [reflexivity|]. apply (unstable_nodes_complement w_cores). reflexivity.
Defined.

Lemma unstable_nodes_uses_cached_nodes_witness :
  let w1 := (nodes w_pair).2 in
  let w2 := mkWorld (set_nets [net4; net3a] (self w1)) (trace w1) in
  let w3 := (@sigclu demo None 0 (partition w2).2).2 in
  nets (self w3) = [net4; net3a] /\
  reachable w1 w3 /\
  exists c : Partition,
    cores (self w3) = Some c /\
    unstable_nodes w3
    = (Ok (⋃ (node_set <$> [net3a; net3b]) ∖ flatten_partition c), w3).
Proof.
  intros w1 w2 w3.
  assert (reachable w1 w3) as Hr.
  { eapply rtc_l; [apply (step_mutate_nets [net4; net3a]) |].
    eapply rtc_l; [apply step_partition |].
    eapply rtc_l; [apply (@step_sigclu demo None 0) | apply rtc_refl]. }
  split; [by_evaluation|]. split; [exact Hr|].
  pose (c := default [] (cores (self w3))).
  assert (cores (self w3) = Some c) as Hc by by_evaluation.
  exists c. split; [exact Hc|].
  exact (unstable_nodes_uses_cached_nodes (NetSeq [net3a; net3b]) no_options w3 c Hr Hc).
Defined.

(** A negative seed is refused before anything is drawn, and an integer
    weight of 2^64 makes the weights an array of objects. *)
Lemma bootstrap_refused_inputs :
  bootstrap net4 w_negative_seed = (Raise ValueError, w_negative_seed) /\
  (partition w_negative_seed).1 = Raise ValueError /\
  bootstrap net_huge w_single = (Raise TypeError, w_single).
Proof. split_and!; by_evaluation. Qed.

End Examples.
